(** * Recurrent PPO training engine: a shallow embedding

    The development follows the Python sources:
    - [agents/PPO_RNN/PPO_RNN.py]   ([PPO_RNNAgent]: schedule, GAE, loss, update),
    - [agents/PPO/network.py]       ([ActorCriticRNN]: class statement, [__call__]),
    - [environment_loop.py]         ([run_train]),
    - [envs/AYS/AYS_Environment_MultiAgent.py]
                                    ([get_reward_function], planetary boundaries),
    - [envs/AYS_JAX.py]             (the compilation of the file).

    Arrays are lists (one nesting level per axis, row-major); JAX and optax
    primitives whose body is not part of the repository (the network
    application, differentiation, the optimiser step, the PRNG) are fields
    of type classes, so that every statement holds for any implementation
    of them.  Floating-point scalars are an abstract carrier [F] with its
    operations; statements that mention an order or a limit are made over
    the rationals. *)

From Stdlib Require Import String ZArith QArith Lqa Bool Lia Arith List
  Permutation.
Import ListNotations.

Set Implicit Arguments.
Local Close Scope Q_scope.
Local Close Scope Z_scope.
Local Open Scope nat_scope.
Local Open Scope list_scope.

(* ===================================================================== *)
(** * Part I: definitions                                                 *)
(* ===================================================================== *)

(** ** Scalars *)

(** The arithmetic the agent uses; [flit] reads a Python float literal. *)
Class Numeric (F : Type) : Type := {
  flit : Q -> F;
  fadd : F -> F -> F;
  fsub : F -> F -> F;
  fmul : F -> F -> F;
  fdiv : F -> F -> F;
  fneg : F -> F;
  fmax : F -> F -> F;
  fmin : F -> F -> F
}.

(** What only floating-point numbers have: [fnan] is the value
    [jnp.take] writes at an index that is out of bounds, [fexp] and
    [fsqrt] are [jnp.exp] and the square root inside [std]. *)
Class Floating (F : Type) : Type := {
  fnan : F;
  fexp : F -> F;
  fsqrt : F -> F
}.

(** ** Arrays *)

Module Arr.

Section Poly.
Context {A B C : Type}.

(** Elementwise binary operation on two arrays of one axis.  The
    operands of the agent have one shape; JAX refuses operands whose
    shapes do not broadcast, here the longer one is cut. *)
Fixpoint map2 (f : A -> B -> C) (xs : list A) (ys : list B) : list C :=
  match xs, ys with
  | x :: xs', y :: ys' => f x y :: map2 f xs' ys'
  | _, _ => []
  end.

End Poly.

Section Axes.
Context {A : Type}.

(** [jnp.swapaxes(x, 0, 1)] on an array of at least two axes. *)
Fixpoint swapaxes01 (x : list (list A)) : list (list A) :=
  match x with
  | [] => []
  | r :: rs =>
      match rs with
      | [] => map (fun a => [a]) r
      | _ :: _ => map2 cons r (swapaxes01 rs)
      end
  end.

(** [jnp.take(row, indices)] along the one axis of [row]; the default
    mode of [jnp.take] fills the positions whose index is out of bounds. *)
Definition take (fill : A) (indices : list nat) (row : list A) : list A :=
  map (fun i => nth i row fill) indices.

(** [jnp.take(x, indices, axis=1)]. *)
Definition take_axis1 (fill : A) (indices : list nat) (x : list (list A))
  : list (list A) :=
  map (take fill indices) x.

(** [n] consecutive chunks of [sz] cells. *)
Fixpoint chunks (n sz : nat) (l : list A) : list (list A) :=
  match n with
  | O => []
  | S n' => firstn sz l :: chunks n' sz (skipn sz l)
  end.

(** [jnp.reshape(x, [x.shape[0], nm, -1] + list(x.shape[2:]))]: every row
    of axis 1 is cut into [nm] shards of equal size; the reshape demands
    that [nm] divides the length of axis 1. *)
Definition reshape_minibatches (nm : nat) (x : list (list A))
  : list (list (list A)) :=
  map (fun row => chunks nm (length row / nm) row) x.

End Axes.

(** The leaf function of the [minibatches] tree map:
    [swapaxes(reshape(x, [x.shape[0], nm, -1] + ...), 1, 0)]; the result
    is indexed by the minibatch first. *)
Definition split_minibatches {A : Type} (nm : nat) (x : list (list A))
  : list (list (list A)) :=
  swapaxes01 (reshape_minibatches nm x).

(** Three arrays of one shape whose cells are related one by one. *)
Inductive Forall3 {A B C : Type} (R : A -> B -> C -> Prop)
  : list A -> list B -> list C -> Prop :=
| Forall3_nil : Forall3 R [] [] []
| Forall3_cons : forall a b c la lb lc,
    R a b c -> Forall3 R la lb lc -> Forall3 R (a :: la) (b :: lb) (c :: lc).

(** An array of [rows] rows that all have [cols] cells. *)
Definition rect {A : Type} (rows cols : nat) (x : list (list A)) : Prop :=
  length x = rows /\ Forall (fun r => length r = cols) x.

(** The cell [(i, j)] of an array of two axes, if there is one. *)
Definition cell {A : Type} (x : list (list A)) (i j : nat) : option A :=
  match nth_error x i with
  | Some r => nth_error r j
  | None => None
  end.

(** [jax.lax.scan(f, init, xs)]. *)
Fixpoint scan {C X Y : Type} (f : C -> X -> C * Y) (init : C) (xs : list X)
  : C * list Y :=
  match xs with
  | [] => (init, [])
  | x :: xs' =>
      let '(c, y) := f init x in
      let '(c', ys) := scan f c xs' in
      (c', y :: ys)
  end.

(** [jax.lax.scan(f, init, xs, reverse=True)]: the elements are consumed
    from the last to the first, and every output is stored at the
    position of the input it was computed from. *)
Fixpoint scan_reverse {C X Y : Type} (f : C -> X -> C * Y) (init : C)
  (xs : list X) : C * list Y :=
  match xs with
  | [] => (init, [])
  | x :: xs' =>
      let '(c, ys) := scan_reverse f init xs' in
      let '(c', y) := f c x in
      (c', y :: ys)
  end.

(** [jax.lax.scan(f, init, None, length)]. *)
Fixpoint scan_n {C Y : Type} (f : C -> unit -> C * Y) (init : C) (length : nat)
  : C * list Y :=
  match length with
  | O => (init, [])
  | S n =>
      let '(c, y) := f init tt in
      let '(c', ys) := scan_n f c n in
      (c', y :: ys)
  end.

End Arr.

(** ** N-dimensional arrays with an explicit shape

    The recurrent hidden state is reshaped and squeezed, so it carries
    its shape next to its row-major data. *)

Module Nd.

Record ndarray (F : Type) : Type := mk {
  shape : list nat;
  data : list F
}.

Section Ops.
Context {F : Type}.

Definition size (x : ndarray F) : nat := length (data x).

(** [jnp.reshape(x, (1, num_envs, -1))]: the data stay in row-major
    order, the last axis takes what is left of the size; the reshape
    demands that [num_envs] divides the size. *)
Definition reshape_1_n (num_envs : nat) (x : ndarray F) : ndarray F :=
  mk [1; num_envs; size x / num_envs] (data x).

(** [x.squeeze()]: all axes of length one are removed. *)
Definition squeeze (x : ndarray F) : ndarray F :=
  mk (filter (fun d => negb (d =? 1)) (shape x)) (data x).

(** [x.squeeze(axis=0)]. *)
Definition squeeze_axis0 (x : ndarray F) : ndarray F :=
  mk (tl (shape x)) (data x).

(** Number of cells below the first two axes. *)
Definition cell (x : ndarray F) : nat := fold_right Nat.mul 1 (skipn 2 (shape x)).

(** The array as rows (axis 0) of cells (axis 1), every cell holding the
    remaining axes. *)
Definition rows (x : ndarray F) : list (list (list F)) :=
  let n0 := nth 0 (shape x) 0 in
  let n1 := nth 1 (shape x) 0 in
  map (Arr.chunks n1 (cell x)) (Arr.chunks n0 (n1 * cell x) (data x)).

Definition of_rows (tail : list nat) (r : list (list (list F))) : ndarray F :=
  mk (length r :: length (hd [] r) :: tail) (concat (concat r)).

(** [jnp.take(x, indices, axis=1)]. *)
Definition take_axis1 (fill : F) (indices : list nat) (x : ndarray F) : ndarray F :=
  of_rows (skipn 2 (shape x))
          (Arr.take_axis1 (repeat fill (cell x)) indices (rows x)).

(** The [minibatches] leaf function on the hidden state: a list, one
    array of shape [(x.shape[0], x.shape[1] / nm, ...)] per minibatch. *)
Definition split_minibatches (nm : nat) (x : ndarray F) : list (ndarray F) :=
  map (of_rows (skipn 2 (shape x))) (Arr.split_minibatches nm (rows x)).

End Ops.
End Nd.

(** ** The trajectory batch *)

Module Utils.

(** Modelled from the spec: the declaration of [Transition] ([utils]) is
    missing from the sources.  The fields are the eight of the data
    model, in the order in which [_run_episode_step] passes them to the
    constructor and under the names by which [PPO_RNN.py] reads them:
    the whole-episode flag [global_done], the per-agent flag [done],
    then action, value, reward, log-probability, observation and the
    diagnostics.  A batch is a structure of arrays: [arr] is the array
    type of its leaves, [F] the scalars and [I] the diagnostics cell. *)
Record Transition (F I : Type) (arr : Type -> Type) : Type := mkTransition {
  global_done : arr bool;
  done : arr bool;
  action : arr Z;
  value : arr F;
  reward : arr F;
  log_prob : arr F;
  obs : arr (list F);
  info : arr I
}.

Arguments mkTransition {F I arr}.

(** Arrays of one, two and three axes as type constructors. *)
Definition arr1 (A : Type) : Type := list A.
Definition arr2 (A : Type) : Type := list (list A).
Definition arr3 (A : Type) : Type := list (list (list A)).

Section Pytree.
Context {F I : Type}.

(** [jax.tree_map(f, traj_batch)] for a leaf function that does not look
    at the cells. *)
Definition tree_map {a b : Type -> Type} (f : forall A, a A -> b A)
  (t : Transition F I a) : Transition F I b :=
  mkTransition (f _ (global_done t)) (f _ (done t)) (f _ (action t))
               (f _ (value t)) (f _ (reward t)) (f _ (log_prob t))
               (f _ (obs t)) (f _ (info t)).

(** The slices along the leading axis that [jax.lax.scan] hands to its
    body, one [Transition] per index.  The leaves of a batch have one
    length along the leading axis ([scan] refuses any other batch). *)
Definition unstack {a : Type -> Type} (t : Transition F I (fun A => list (a A)))
  : list (Transition F I a) :=
  map (fun '(gd, (d, (ac, (v, (r, (lp, (o, i))))))) =>
         mkTransition gd d ac v r lp o i)
      (combine (global_done t) (combine (done t) (combine (action t)
        (combine (value t) (combine (reward t) (combine (log_prob t)
          (combine (obs t) (info t)))))))).

(** The structure of arrays built from slices: the stacked outputs of a
    scan. *)
Definition stack {a : Type -> Type} (ts : list (Transition F I a))
  : Transition F I (fun A => list (a A)) :=
  mkTransition (map (@global_done _ _ _) ts) (map (@done _ _ _) ts)
               (map (@action _ _ _) ts) (map (@value _ _ _) ts)
               (map (@reward _ _ _) ts) (map (@log_prob _ _ _) ts)
               (map (@obs _ _ _) ts) (map (@info _ _ _) ts).

(** The batch with other per-agent flags and all the other leaves
    unchanged. *)
Definition with_done {a : Type -> Type} (d : a bool) (t : Transition F I a)
  : Transition F I a :=
  mkTransition (global_done t) d (action t) (value t) (reward t) (log_prob t)
               (obs t) (info t).

End Pytree.
End Utils.

Import Utils.

(** ** agents/PPO_RNN/PPO_RNN.py *)

Module PPO_RNN.

(** The entries of [config] that [update] reads. *)
Record Config (F : Type) : Type := mkConfig {
  NUM_ENVS : nat;
  NUM_MINIBATCHES : nat;
  UPDATE_EPOCHS : nat;
  GAMMA : F;
  GAE_LAMBDA : F;
  CLIP_EPS : F;
  VF_COEF : F;
  ENT_COEF : F
}.

(** The JAX, flax, distrax and optax operations whose code is outside
    the repository.  [network_apply] is [self.network.apply], a
    distribution [pi] answers [log_prob] and [entropy],
    [value_and_grad] is [jax.value_and_grad(_, has_aux=True)],
    [apply_gradients] the [TrainState] method, [split] and [permutation]
    the functions of [jax.random]; [info_fill] is what [jnp.take] writes
    in a diagnostics leaf at an index out of bounds. *)
Class Jax (F I Params TrainState Key Distr : Type) : Type := {
  network_apply : Params -> Nd.ndarray F -> arr3 F * arr2 bool
                  -> Nd.ndarray F * Distr * arr2 F;
  pi_log_prob : Distr -> arr2 Z -> arr2 F;
  pi_entropy : Distr -> arr2 F;
  value_and_grad : (Params -> F * (F * F * F)) -> Params
                   -> F * (F * F * F) * Params;
  params : TrainState -> Params;
  apply_gradients : TrainState -> Params -> TrainState;
  split : Key -> Key * Key;
  permutation : Key -> nat -> list nat;
  info_fill : I
}.

Section Arithmetic.
Context {F : Type} `{Numeric F} `{Floating F}.

(** An integer array cell used in float arithmetic. *)
Definition of_int (z : Z) : F := flit (inject_Z z).

(** [1 - done] on a boolean cell: the integer 0 or 1. *)
Definition one_minus (d : bool) : Z := (1 - (if d then 1 else 0))%Z.

Definition square (x : F) : F := fmul x x.

(** [jnp.clip(x, lo, hi)]. *)
Definition clip (x lo hi : F) : F := fmin (fmax x lo) hi.

(** Elementwise operations on arrays of two axes. *)
Definition amap {A B : Type} (f : A -> B) (x : arr2 A) : arr2 B := map (map f) x.
Definition amap2 {A B C : Type} (f : A -> B -> C) (x : arr2 A) (y : arr2 B)
  : arr2 C :=
  Arr.map2 (Arr.map2 f) x y.

(** [x.sum()] and [x.mean()] over all the cells. *)
Definition asum (x : arr2 F) : F := fold_left fadd (concat x) (flit 0).
Definition amean (x : arr2 F) : F :=
  fdiv (asum x) (of_int (Z.of_nat (length (concat x)))).

(** [x.std()]. *)
Definition astd (x : arr2 F) : F :=
  let m := amean x in
  fsqrt (amean (amap (fun v => square (fsub v m)) x)).

(** [x.mean(where=w)] for an integer mask [w]: the cells whose mask is
    zero are replaced by the zero of the sum before the cells are added
    up, and the divisor is the number of cells whose mask is not zero. *)
Definition selected (w : Z) : bool := negb (w =? 0)%Z.
Definition where_ (w : Z) (x : F) : F := if selected w then x else flit 0.
Definition amean_where (x : arr2 F) (w : arr2 Z) : F :=
  fdiv (asum (amap2 where_ w x))
       (asum (amap (fun m => if selected m then flit 1 else flit 0) w)).

End Arithmetic.

Section Agent.
Context {F I Params TrainState Key Distr : Type}.
Context `{Numeric F} `{Floating F} `{Jax F I Params TrainState Key Distr}.
Variable config : Config F.

(** *** [_calculate_gae] *)

Definition _get_advantages (gae_and_next_value : arr1 F * arr1 F)
  (transition : Transition F I arr1) : (arr1 F * arr1 F) * arr1 F :=
  let '(gae, next_value) := gae_and_next_value in
  let '(done, value, reward) :=
    (global_done transition, value transition, reward transition) in
  let delta :=
    Arr.map2 fsub
      (Arr.map2 fadd reward
         (Arr.map2 fmul (map (fmul (GAMMA config)) next_value)
                        (map of_int (map one_minus done))))
      value in
  let gae :=
    Arr.map2 fadd delta
      (Arr.map2 fmul
         (map (fmul (fmul (GAMMA config) (GAE_LAMBDA config)))
              (map of_int (map one_minus done)))
         gae) in
  ((gae, value), gae).

Definition zeros_like (x : arr1 F) : arr1 F := map (fun _ => flit 0) x.

Definition _calculate_gae (traj_batch : Transition F I arr2) (last_val : arr1 F)
  : arr2 F * arr2 F :=
  let '(_, advantages) :=
    Arr.scan_reverse _get_advantages (zeros_like last_val, last_val)
                     (unstack traj_batch) in
  (advantages, amap2 fadd advantages (value traj_batch)).

(** Two slices that agree on the three leaves the scan body reads. *)
Definition same_gae_inputs (tr tr' : Transition F I arr1) : Prop :=
  global_done tr = global_done tr' /\ Utils.value tr = Utils.value tr'
  /\ Utils.reward tr = Utils.reward tr'.

(** The recurrence of the advantage estimator in the words of the
    specification, for one time step and all the environments at once:
    [delta = reward + gamma * next_value * (1 - done) - value] and
    [gae = delta + gamma * lambda * (1 - done) * gae_prev]. *)
Definition recurrence_delta (reward next_value : arr1 F) (done : arr1 bool)
  (value : arr1 F) : arr1 F :=
  Arr.map2 (fun rn_d v => fsub rn_d v)
    (Arr.map2 (fun r nd => fadd r nd)
       reward
       (Arr.map2 (fun n d => fmul (fmul (GAMMA config) n) (of_int (one_minus d)))
                 next_value done))
    value.

Definition recurrence_gae (delta : arr1 F) (done : arr1 bool) (gae_prev : arr1 F)
  : arr1 F :=
  Arr.map2 fadd delta
    (Arr.map2 (fun d g =>
                 fmul (fmul (fmul (GAMMA config) (GAE_LAMBDA config))
                            (of_int (one_minus d))) g)
              done gae_prev).

(** *** [_loss_fn] *)

(** The three arrays that are averaged under the mask. *)
Definition value_losses_max (value value_old targets : arr2 F) : arr2 F :=
  let value_pred_clipped :=
    amap2 fadd value_old
      (amap (fun d => clip d (fneg (CLIP_EPS config)) (CLIP_EPS config))
            (amap2 fsub value value_old)) in
  let value_losses := amap square (amap2 fsub value targets) in
  let value_losses_clipped := amap square (amap2 fsub value_pred_clipped targets) in
  amap2 fmax value_losses value_losses_clipped.

Definition loss_actor_unreduced (log_prob log_prob_old gae : arr2 F) : arr2 F :=
  let ratio := amap fexp (amap2 fsub log_prob log_prob_old) in
  let gae :=
    let m := amean gae in
    let s := fadd (astd gae) (flit (1 # 100000000)) in
    amap (fun g => fdiv (fsub g m) s) gae in
  let loss_actor1 := amap2 fmul ratio gae in
  let loss_actor2 :=
    amap2 fmul
      (amap (fun r => clip r (fsub (flit 1) (CLIP_EPS config))
                             (fadd (flit 1) (CLIP_EPS config))) ratio)
      gae in
  amap fneg (amap2 fmin loss_actor1 loss_actor2).

(** The reductions [.mean(where=(1 - traj_batch.done))] of the three
    arrays. *)
Definition masked_losses (value_losses loss_actor entropy : arr2 F)
  (done : arr2 bool) : F * F * F :=
  let w := amap one_minus done in
  (fmul (flit (1 # 2)) (amean_where value_losses w),
   amean_where loss_actor w,
   amean_where entropy w).

Definition _loss_fn (params : Params) (init_hstate : Nd.ndarray F)
  (traj_batch : Transition F I arr2) (gae targets : arr2 F)
  : F * (F * F * F) :=
  let '(_, pi, value) :=
    network_apply params (Nd.squeeze_axis0 init_hstate)
                  (obs traj_batch, done traj_batch) in
  let log_prob := pi_log_prob pi (action traj_batch) in
  let '(value_loss, loss_actor, entropy) :=
    masked_losses
      (value_losses_max value (Utils.value traj_batch) targets)
      (loss_actor_unreduced log_prob (Utils.log_prob traj_batch) gae)
      (pi_entropy pi)
      (done traj_batch) in
  let total_loss :=
    fsub (fadd loss_actor (fmul (VF_COEF config) value_loss))
         (fmul (ENT_COEF config) entropy) in
  (total_loss, (value_loss, loss_actor, entropy)).

(** *** [_update_epoch] and [update] *)

Variable EnvState : Type.

(** [runner_state] as [update] receives it: the train state, the
    environment state, the last observation [(NUM_ENVS, obs)], the last
    done flags [(NUM_ENVS,)], the hidden state and the PRNG key. *)
Definition RunnerState : Type :=
  (TrainState * EnvState * arr2 F * arr1 bool * Nd.ndarray F * Key)%type.

Definition UpdateState : Type :=
  (TrainState * Nd.ndarray F * Transition F I arr2 * arr2 F * arr2 F * Key)%type.

Definition BatchInfo : Type :=
  (Nd.ndarray F * Transition F I arr2 * arr2 F * arr2 F)%type.

Definition _update_minbatch (train_state : TrainState) (batch_info : BatchInfo)
  : TrainState * (F * (F * F * F)) :=
  let '(init_hstate, traj_batch, advantages, targets) := batch_info in
  let grad_fn :=
    value_and_grad
      (fun p => _loss_fn p init_hstate traj_batch advantages targets) in
  let '(total_loss, grads) := grad_fn (params train_state) in
  let train_state := apply_gradients train_state grads in
  (train_state, total_loss).

(** [jnp.take(x, permutation, axis=1)] on every leaf of the trajectory;
    the value written at an index out of bounds depends on the type of
    the leaf: [True] for booleans, the least integer for the actions,
    NaN for floats. *)
Definition take_traj (permutation : list nat) (t : Transition F I arr2)
  : Transition F I arr2 :=
  mkTransition
    (Arr.take_axis1 true permutation (global_done t))
    (Arr.take_axis1 true permutation (done t))
    (Arr.take_axis1 (- 2 ^ 31)%Z permutation (action t))
    (Arr.take_axis1 fnan permutation (value t))
    (Arr.take_axis1 fnan permutation (reward t))
    (Arr.take_axis1 fnan permutation (log_prob t))
    (Arr.take_axis1
       (repeat fnan (length (hd [] (hd [] (obs t))))) permutation (obs t))
    (Arr.take_axis1 info_fill permutation (info t)).

(** The tuple [batch] after the permutation was applied to axis 1 of
    every leaf. *)
Definition shuffle (permutation : list nat) (batch : BatchInfo) : BatchInfo :=
  let '(init_hstate, traj_batch, advantages, targets) := batch in
  (Nd.take_axis1 fnan permutation init_hstate,
   take_traj permutation traj_batch,
   Arr.take_axis1 fnan permutation advantages,
   Arr.take_axis1 fnan permutation targets).

(** The tree [minibatches], as the list of the slices that the scan over
    [_update_minbatch] receives. *)
Definition split_batch (shuffled_batch : BatchInfo) : list BatchInfo :=
  let '(init_hstate, traj_batch, advantages, targets) := shuffled_batch in
  let nm := NUM_MINIBATCHES config in
  map (fun '(h, (t, (a, g))) => (h, t, a, g))
      (combine (Nd.split_minibatches nm init_hstate)
         (combine (unstack (tree_map
                              (fun A => @Arr.split_minibatches A nm) traj_batch))
            (combine (Arr.split_minibatches nm advantages)
                     (Arr.split_minibatches nm targets)))).

(** The batch of an epoch before and after the shuffle.  The two
    [.squeeze()] on the swapped advantages and targets find no axis of
    length one when there are several environments and steps, and are
    left out: the model is that of two or more environments and steps
    (with one, the squeeze removes an axis and [jnp.take] on axis 1
    raises). *)
Definition epoch_batch (init_hstate : Nd.ndarray F)
  (traj_batch : Transition F I arr2) (advantages targets : arr2 F) : BatchInfo :=
  (init_hstate,
   traj_batch,
   Arr.swapaxes01 advantages,
   Arr.swapaxes01 targets).

Definition _update_epoch (update_state : UpdateState) (unused : unit)
  : UpdateState * list (F * (F * F * F)) :=
  let '(train_state, init_hstate, traj_batch, advantages, targets, key) :=
    update_state in
  let '(key, _key) := split key in
  let init_hstate := Nd.reshape_1_n (NUM_ENVS config) init_hstate in
  let permutation := permutation _key (NUM_ENVS config) in
  let traj_batch := tree_map (@Arr.swapaxes01) traj_batch in
  let batch := epoch_batch init_hstate traj_batch advantages targets in
  let shuffled_batch := shuffle permutation batch in
  let minibatches := split_batch shuffled_batch in
  let '(train_state, total_loss) :=
    Arr.scan _update_minbatch train_state minibatches in
  let traj_batch := tree_map (@Arr.swapaxes01) traj_batch in
  ((train_state, Nd.squeeze init_hstate, traj_batch, advantages, targets, key),
   total_loss).

(** [last_val.squeeze()] removes the time axis of length one that
    [jnp.newaxis] added to the network input.  The model is that of two
    or more environments: with one, the squeeze leaves no axis at all
    and the scan of the estimator refuses its carry. *)
Definition update (runner_state : RunnerState) (traj_batch : Transition F I arr2)
  : RunnerState :=
  let '(train_state, env_state, last_obs, last_done, hstate, key) :=
    runner_state in
  let ac_in := ([last_obs], [last_done]) in
  let '(_, _, last_val) := network_apply (params train_state) hstate ac_in in
  let last_val := concat last_val in
  let '(advantages, targets) := _calculate_gae traj_batch last_val in
  let update_state :=
    (train_state, hstate, traj_batch, advantages, targets, key) in
  let '(update_state, loss_info) :=
    Arr.scan_n _update_epoch update_state (UPDATE_EPOCHS config) in
  let '(train_state, hstate, traj_batch, advantages, targets, key) :=
    update_state in
  (train_state, env_state, last_obs, last_done, hstate, key).

(** A property of the hidden state inside the carry of the epochs. *)
Definition carried_hstate (P : Nd.ndarray F -> Prop) (us : UpdateState) : Prop :=
  let '(_, h, _, _, _, _) := us in P h.

(** The components of the runner state. *)
Definition train_state_of (r : RunnerState) : TrainState :=
  let '(train_state, _, _, _, _, _) := r in train_state.
Definition env_state_of (r : RunnerState) : EnvState :=
  let '(_, env_state, _, _, _, _) := r in env_state.
Definition last_obs_of (r : RunnerState) : arr2 F :=
  let '(_, _, last_obs, _, _, _) := r in last_obs.
Definition last_done_of (r : RunnerState) : arr1 bool :=
  let '(_, _, _, last_done, _, _) := r in last_done.
Definition hstate_of (r : RunnerState) : Nd.ndarray F :=
  let '(_, _, _, _, hstate, _) := r in hstate.
Definition key_of (r : RunnerState) : Key :=
  let '(_, _, _, _, _, key) := r in key.

End Agent.

(** Two arrays of the shape of the mask [done] that hold the same value
    at every cell whose flag is false, and any two values at the cells
    whose flag is true. *)
Definition agree_off_done {F : Type} (done : arr2 bool) (x y : arr2 F) : Prop :=
  Arr.Forall3 (Arr.Forall3 (fun (d : bool) a b => d = false -> a = b)) done x y.

(** *** [linear_schedule]

    The schedule of [__init__], over the rationals; [count] is the
    number of optimiser steps taken so far, [//] the floor division of
    integers and [/] the true division. *)
Section Schedule.
Variable LR : Q.
Variables NUM_MINIBATCHES_ UPDATE_EPOCHS_ NUM_UPDATES : Z.

Definition linear_schedule (count : Z) : Q :=
  let frac :=
    (1 - inject_Z (count / (NUM_MINIBATCHES_ * UPDATE_EPOCHS_))
         / inject_Z NUM_UPDATES)%Q in
  (LR * frac)%Q.

(** The learning rate that [optax.adam] uses at step [count]. *)
Definition learning_rate (ANNEAL_LR : bool) (count : Z) : Q :=
  if ANNEAL_LR then linear_schedule count else LR.

End Schedule.

(** *** Notions for the properties of the agent *)

Section Notions.
Context {F I : Type} `{Numeric F}.
Variable config : Config F.

(** The two lines of [_get_advantages] on the cells of one environment. *)
Definition gae_cell (reward next_value : F) (done : bool) (value gae : F) : F :=
  let delta :=
    fsub (fadd reward
               (fmul (fmul (GAMMA config) next_value) (of_int (one_minus done))))
         value in
  fadd delta
       (fmul (fmul (fmul (GAMMA config) (GAE_LAMBDA config))
                   (of_int (one_minus done)))
             gae).

(** Every slice of a rollout holds [E] environments in the three leaves
    that the estimator reads. *)
Definition rows_of_width (E : nat) (rows : list (Transition F I arr1)) : Prop :=
  Forall (fun tr => length (global_done tr) = E
                    /\ length (Utils.value tr) = E
                    /\ length (Utils.reward tr) = E) rows.

(** [value_pred_clipped] of [_loss_fn]. *)
Definition value_pred_clipped (value value_old : arr2 F) : arr2 F :=
  amap2 fadd value_old
    (amap (fun d => clip d (fneg (CLIP_EPS config)) (CLIP_EPS config))
          (amap2 fsub value value_old)).

(** The cells of [x] whose flag in [done] is false, in row-major order. *)
Definition kept {A : Type} (done : arr2 bool) (x : arr2 A) : list A :=
  concat (Arr.map2 (fun ds xs =>
                      map snd (filter (fun p => negb (fst p)) (combine ds xs)))
                   done x).

(** Every leaf of a batch is an array of [rows] rows and [cols] columns. *)
Definition rect_traj (rows cols : nat) (t : Transition F I arr2) : Prop :=
  Arr.rect rows cols (global_done t) /\ Arr.rect rows cols (done t)
  /\ Arr.rect rows cols (action t) /\ Arr.rect rows cols (Utils.value t)
  /\ Arr.rect rows cols (Utils.reward t) /\ Arr.rect rows cols (Utils.log_prob t)
  /\ Arr.rect rows cols (obs t) /\ Arr.rect rows cols (info t).

End Notions.

End PPO_RNN.

(** ** What Python does when it loads a module *)

Module Python.

(** The exceptions met while the modules of the repository are loaded;
    [IndentationError] carries the line of the header that is left
    without its block. *)
Inductive exception : Type :=
| TypeError (msg : string)
| IndentationError (header_line : nat).

(** The end of a run of statements: done with a value, or left through
    an exception that nothing catches. *)
Inductive executed (A : Type) : Type :=
| Done (a : A)
| Uncaught (e : exception).

Arguments Done {A}.
Arguments Uncaught {A}.

(** The exit status of the interpreter: after an uncaught exception it
    prints the traceback and the process ends with status 1. *)
Definition exit_status {A : Type} (r : executed A) : Z :=
  match r with
  | Done _ => 0%Z
  | Uncaught _ => 1%Z
  end.

(** *** Data classes *)

(** An annotated name of a class body, with or without a default
    value. *)
Record field : Type := mkField {
  field_name : string;
  has_default : bool
}.

(** The loop of [dataclasses] that writes [__init__]: the fields are
    taken in the order of their declaration, and a field without default
    that comes after a field with one is refused. *)
Fixpoint first_misplaced (seen_default : bool) (fields : list field)
  : option string :=
  match fields with
  | [] => None
  | f :: rest =>
      if has_default f then first_misplaced true rest
      else if seen_default then Some (field_name f)
      else first_misplaced seen_default rest
  end.

Definition dataclass (fields : list field) : executed (list field) :=
  match first_misplaced false fields with
  | Some name =>
      Uncaught (TypeError ("non-default argument '" ++ name
                           ++ "' follows default argument"))
  | None => Done fields
  end.

(** *** Blocks *)

(** A logical line of a source file: its number, its indentation, and
    whether it is the header of a compound statement whose block starts
    on the next line (the line ends in a colon).  Blank lines and
    comments are no logical lines. *)
Record logical_line : Type := mkLine {
  lineno : nat;
  indent : nat;
  header : bool
}.

(** The rule of the grammar on blocks: the logical line after a header
    is indented further than the header. *)
Fixpoint first_empty_block (lines : list logical_line) : option nat :=
  match lines with
  | [] => None
  | l :: rest =>
      match rest with
      | [] => if header l then Some (lineno l) else None
      | l' :: _ =>
          if header l && (indent l' <=? indent l) then Some (lineno l)
          else first_empty_block rest
      end
  end.

(** The compilation of a file before any of its statements runs; a
    header without block is an [IndentationError] (expected an indented
    block). *)
Definition compile (lines : list logical_line) : executed unit :=
  match first_empty_block lines with
  | Some n => Uncaught (IndentationError n)
  | None => Done tt
  end.

End Python.

(** ** agents/PPO/network.py *)

Module Network.

(** The flax layers and activations: [Dense p i n] is the [i]-th
    [nn.Dense] of the module in the order of the calls, with [n] features,
    under the parameters [p]; it acts on the last axis. *)
Class Flax (F Params : Type) : Type := {
  Dense : Params -> nat -> nat -> list F -> list F;
  relu : F -> F;
  tanh : F -> F
}.

(** [distrax.Categorical(logits=...)]. *)
Record Categorical (F : Type) : Type := mkCategorical {
  logits : arr3 F
}.

(** The class body declares three fields, lines 14 to 16: [action_dim]
    without default, [activation] with the default ["tanh"], [config]
    without default. *)
Definition ActorCriticRNN_fields : list Python.field :=
  [Python.mkField "action_dim" false;
   Python.mkField "activation" true;
   Python.mkField "config" false].

(** The class statement: [nn.Module] makes a data class of every
    subclass at the moment the class is created; the fields [parent] and
    [name] that it adds are keyword-only and come after the fields of
    the class. *)
Definition class_statement : Python.executed (list Python.field) :=
  Python.dataclass ActorCriticRNN_fields.

(** The attributes of [self] that the body of [__call__] reads;
    [config] is stored and never read. *)
Record ActorCriticRNN (Cfg : Type) : Type := mkActorCriticRNN {
  action_dim : nat;
  activation : string;
  config : Cfg
}.

Section Call.
Context {F Params Cfg : Type} `{Numeric F} `{Floating F} `{Flax F Params}.

(** A layer applied to every cell of the two leading axes. *)
Definition on_cells (f : list F -> list F) (x : arr3 F) : arr3 F :=
  map (map f) x.

(** [jnp.squeeze(critic, axis=-1)]: the last axis holds the one feature
    of [nn.Dense(1)]. *)
Definition squeeze_last (x : arr3 F) : arr2 F := map (map (hd fnan)) x.

Definition __call__ (self : ActorCriticRNN Cfg) (params : Params)
  (hidden : Nd.ndarray F) (x : arr3 F * arr2 bool)
  : Nd.ndarray F * Categorical F * arr2 F :=
  let activation :=
    if (activation self =? "relu")%string then relu else tanh in
  let '(obs, dones) := x in
  let embedding := on_cells (Dense params 0 128) obs in
  let embedding := on_cells (map activation) embedding in
  let embedding := on_cells (Dense params 1 128) embedding in
  let embedding := on_cells (map activation) embedding in
  let actor_mean := on_cells (Dense params 2 (action_dim self)) embedding in
  let pi := mkCategorical actor_mean in
  let critic := on_cells (Dense params 3 128) obs in
  let critic := on_cells (map activation) critic in
  let critic := on_cells (Dense params 4 128) critic in
  let critic := on_cells (map activation) critic in
  let critic := on_cells (Dense params 5 1) critic in
  (hidden, pi, squeeze_last critic).

(** A program that loads the module, builds the network with the
    arguments of the constructor ([activation] may be left out) and
    applies it once. *)
Definition build_and_call (action_dim : nat) (activation : option string)
  (config : Cfg) (params : Params) (hidden : Nd.ndarray F)
  (x : arr3 F * arr2 bool)
  : Python.executed (Nd.ndarray F * Categorical F * arr2 F) :=
  match class_statement with
  | Python.Done _ =>
      let self :=
        mkActorCriticRNN action_dim
          (match activation with Some a => a | None => "tanh"%string end)
          config in
      Python.Done (__call__ self params hidden x)
  | Python.Uncaught e => Python.Uncaught e
  end.

End Call.
End Network.

(** ** The environments: reward dispatch and loading *)

Module AYS.

(** What a call can end in: a normal return, [sys.exit] / [exit] with a
    status, or an exception that nothing in the sources catches. *)
Inductive exception : Type :=
| IndexError.

Inductive outcome (W : Type) : Type :=
| Returned (w : W)
| Exited (status : Z) (w : W)
| Raised (e : exception) (w : W).

Arguments Returned {W}.
Arguments Exited {W}.
Arguments Raised {W}.

(** The environment object and what was printed so far. *)
Record world (St : Type) : Type := mkWorld {
  env : St;
  stdout : list string
}.

Section Dispatch.
Context {St : Type}.

Definition print (line : string) (w : world St) : world St :=
  mkWorld (env w) (stdout w ++ [line]).

Definition run (f : St -> St) (w : world St) : world St :=
  mkWorld (f (env w)) (stdout w).

(** [self.reward_type[agent] == name]; an entry is a string or [None]. *)
Definition is_ (entry : option string) (name : string) : bool :=
  match entry with
  | Some s => (s =? name)%string
  | None => false
  end.

(** [for agent in range(self.num_agents): body(agent)]. *)
Fixpoint for_agents (body : nat -> world St -> outcome (world St))
  (agents : list nat) (w : world St) : outcome (world St) :=
  match agents with
  | [] => Returned w
  | agent :: rest =>
      match body agent w with
      | Returned w' => for_agents body rest w'
      | o => o
      end
  end.

Definition choose_msg : string :=
  "ERROR! You have to choose a reward function!
 Available Reward functions for this environment are: PB, rel_share, survive, desirable_region!".

Definition unavailable_msg (s : string) : string :=
  ("ERROR! The reward function you chose is not available! " ++ s)%string.

End Dispatch.

(** *** envs/AYS/AYS_Environment_MultiAgent.py *)
Module MultiAgent.

(** The local reward functions of [get_reward_function], each one
    writing [self.reward[agent]]. *)
Class Rewards (St : Type) : Type := {
  reward_final_state : nat -> St -> St;
  reward_rel_share : nat -> St -> St;
  reward_desirable_region : nat -> St -> St;
  reward_distance_PB : nat -> St -> St;
  reward_distance_PB_new : nat -> St -> St;
  reward_distance_PB_extended : nat -> St -> St;
  reward_survive : nat -> St -> St;
  reward_survive_cost : nat -> St -> St;
  policy_cost : nat -> St -> St;
  simple : nat -> St -> St;
  filename : string
}.

Section Env.
Context {St : Type} `{Rewards St}.

(** The function [print_debug_info] of the module. *)
Definition print_debug_info (w : world St) : world St :=
  print ("File:  " ++ filename)%string w.

Definition dispatch (reward_type : list (option string)) (agent : nat)
  (w : world St) : outcome (world St) :=
  match nth_error reward_type agent with
  | None => Raised IndexError w
  | Some rt =>
      if is_ rt "final_state" then Returned (run (reward_final_state agent) w)
      else if is_ rt "ren_knowledge" then Returned (run (reward_rel_share agent) w)
      else if is_ rt "desirable_region" then
        Returned (run (reward_desirable_region agent) w)
      else if is_ rt "PB" then Returned (run (reward_distance_PB agent) w)
      else if is_ rt "PB_new" then Returned (run (reward_distance_PB_new agent) w)
      else if is_ rt "PB_ext" then
        Returned (run (reward_distance_PB_extended agent) w)
      else if is_ rt "survive" then Returned (run (reward_survive agent) w)
      else if is_ rt "survive_cost" then
        Returned (run (reward_survive_cost agent) w)
      else if is_ rt "policy_cost" then Returned (run (policy_cost agent) w)
      else if is_ rt "simple" then Returned (run (simple agent) w)
      else
        match rt with
        | None => Exited 1 (print choose_msg w)
        | Some s =>
            let w := print (unavailable_msg s) w in
            let w := print_debug_info w in
            Exited 1 w
        end
  end.

Definition get_reward_function (num_agents : nat)
  (reward_type : list (option string)) (w : world St) : outcome (world St) :=
  for_agents (dispatch reward_type) (seq 0 num_agents) w.

(** The selectors this environment recognises. *)
Definition recognised (s : string) : bool :=
  existsb (String.eqb s)
    ["final_state"; "ren_knowledge"; "desirable_region"; "PB"; "PB_new";
     "PB_ext"; "survive"; "survive_cost"; "policy_cost"; "simple"]%string.

End Env.
End MultiAgent.

(** *** envs/AYS_JAX.py *)
Module JAX.

(** The logical lines 242 to 249 of the file, all in the body of the
    class: the [return] that ends [step_env], the header
    [def step(self):], after which come two blank lines, the header of
    [generate_observation], and the first two lines of its block. *)
Definition lines_242_249 : list Python.logical_line :=
  [Python.mkLine 242 8 false;
   Python.mkLine 244 4 true;
   Python.mkLine 247 4 true;
   Python.mkLine 248 8 true;
   Python.mkLine 249 12 false].

(** [import project_name.envs.AYS_JAX]: the file is compiled as a whole
    before its first statement runs, so before the class and its
    [get_reward_function] exist. *)
Definition import_module : Python.executed unit :=
  Python.compile lines_242_249.

End JAX.

(** A call that ended in [sys.exit(1)]. *)
Definition exits_1 {W : Type} (o : outcome W) : Prop :=
  exists w', o = Exited 1 w'.

(** A call that did not return: the process leaves through [sys.exit] or
    through an exception that is not caught. *)
Definition fatal {W : Type} (o : outcome W) : Prop :=
  match o with
  | Returned _ => False
  | Exited _ _ | Raised _ _ => True
  end.

End AYS.

(** ** environment_loop.py *)

Module EnvLoop.

(** The entries of [config] that [run_train] reads. *)
Record Config : Type := mkConfig {
  SEED : nat;
  NUM_ENVS : nat;
  NUM_DEVICES : nat;
  NUM_STEPS : nat;
  NUM_UPDATES : nat
}.

(** The collaborators of the loop whose code is outside the sources: the
    agent wrapper ([initialise], [act], [update]), the vectorised
    environment ([vreset], [vstep]), the marshalling of [utils] and the
    PRNG.  [done_all] reads [done["__all__"]]; [metric_of] is the
    reshaping of [trajectory_batch.info]. *)
Class Collaborators
  (F I TrainState EnvState GraphState HState Key Keys
     ObsDict ActDict RewDict DoneDict InfoDict Pi SpecKey Metric : Type)
  : Type := {
  PRNGKey : nat -> Key;
  split : Key -> Key * Key;
  split_reshape : Key -> nat -> nat -> Keys;
  actor_initialise : Key -> TrainState * HState;
  actor_act : TrainState -> HState -> arr3 F -> arr2 bool -> Key
              -> HState * arr2 Z * arr2 F * arr2 F * Key * Pi * SpecKey;
  actor_update :
    TrainState * EnvState * ObsDict * arr2 bool * HState * Key
    -> Transition F I arr3
    -> TrainState * EnvState * ObsDict * arr2 bool * HState * Key;
  vreset : Keys -> ObsDict * EnvState * GraphState;
  vstep : Keys -> EnvState -> ActDict -> GraphState
          -> ObsDict * EnvState * RewDict * DoneDict * InfoDict * GraphState;
  batchify_obs : ObsDict -> arr3 F;
  batchify_done : DoneDict -> arr2 bool;
  batchify_reward : RewDict -> arr2 F;
  unbatchify : arr2 Z -> ActDict;
  done_all : DoneDict -> arr1 bool;
  swap_info : InfoDict -> arr2 I;
  num_agents : nat;
  metric_of : arr3 I -> nat -> Metric
}.

Section Train.
Context {F I TrainState EnvState GraphState HState Key Keys
           ObsDict ActDict RewDict DoneDict InfoDict Pi SpecKey Metric : Type}.
Context `{Collaborators F I TrainState EnvState GraphState HState Key Keys
            ObsDict ActDict RewDict DoneDict InfoDict Pi SpecKey Metric}.
Variable config : Config.

(** The carry of the rollout and of the update loop. *)
Definition RunnerState : Type :=
  (TrainState * EnvState * ObsDict * arr2 bool * HState * GraphState * Key)%type.

Definition graph_of (runner_state : RunnerState) : GraphState :=
  let '(_, _, _, _, _, g, _) := runner_state in g.

Definition _run_episode_step (runner_state : RunnerState) (unused : unit)
  : RunnerState * Transition F I arr2 :=
  let '(train_state, env_state, last_obs, last_done, hstate, env_graph_state,
        key) := runner_state in
  let obs_batch := batchify_obs last_obs in
  let '(hstate, action_n, log_prob_n, value_n, key, _, _) :=
    actor_act train_state hstate obs_batch last_done key in
  let env_act := unbatchify action_n in
  let '(key, _key) := split key in
  let key_step :=
    split_reshape key (NUM_ENVS config) (NUM_DEVICES config) in
  let '(obs, env_state, reward, done, info, env_graph_state) :=
    vstep key_step env_state env_act env_graph_state in
  let info := swap_info info in
  let done_batch := batchify_done done in
  let transition :=
    mkTransition
      (repeat (done_all done) num_agents)
      done_batch
      action_n
      value_n
      (batchify_reward reward)
      log_prob_n
      obs_batch
      info in
  ((train_state, env_state, obs, done_batch, hstate, env_graph_state, key),
   transition).

(** [_run_update], a closure of [train]: [graph_state] is the variable
    of the enclosing function, bound once by the reset. *)
Definition _run_update (graph_state : GraphState)
  (update_runner_state : RunnerState * nat) (unused : unit)
  : (RunnerState * nat) * Metric :=
  let '(runner_state, update_steps) := update_runner_state in
  let '(runner_state, trajectory_batch) :=
    Arr.scan_n _run_episode_step runner_state (NUM_STEPS config) in
  let trajectory_batch := stack trajectory_batch in
  let '(train_state, env_state, obs, done_batch, hstate, env_graph_state, key) :=
    runner_state in
  let update_state := (train_state, env_state, obs, done_batch, hstate, key) in
  let update_state := actor_update update_state trajectory_batch in
  let '(train_state', _, last_obs, last_done, _, key') := update_state in
  let train_state := train_state' in
  let key := key' in
  let metric := metric_of (info trajectory_batch) update_steps in
  let update_steps := update_steps + 1 in
  (((train_state, env_state, last_obs, last_done, hstate, graph_state, key),
    update_steps),
   metric).

(** The runner state that [train] builds from the one reset. *)
Definition initial_runner_state : RunnerState :=
  let key := PRNGKey (SEED config) in
  let '(train_state, hstate) := actor_initialise key in
  let reset_key :=
    split_reshape key (NUM_ENVS config) (NUM_DEVICES config) in
  let '(obs, env_state, graph_state) := vreset reset_key in
  (train_state, env_state, obs,
   repeat (repeat false (NUM_ENVS config)) num_agents,
   hstate, graph_state, key).

(** The carry of the scan over [_run_update] after [cycles] cycles: the
    runner state that cycle number [cycles] receives. *)
Definition carried_into (cycles : nat) : RunnerState * nat :=
  let runner_state := initial_runner_state in
  fst (Arr.scan_n (_run_update (graph_of runner_state)) (runner_state, 0) cycles).

(** The graph state that the last step of a rollout leaves behind. *)
Definition rollout_graph (runner_state : RunnerState) : GraphState :=
  graph_of (fst (Arr.scan_n _run_episode_step runner_state (NUM_STEPS config))).

Definition train : (RunnerState * nat) * list Metric :=
  let runner_state := initial_runner_state in
  Arr.scan_n (_run_update (graph_of runner_state)) (runner_state, 0)
             (NUM_UPDATES config).

(** The train state inside a runner state, and the update counter next
    to it. *)
Definition train_state_of (runner_state : RunnerState) : TrainState :=
  let '(train_state, _, _, _, _, _, _) := runner_state in train_state.

(** The rollout of one cycle: the scan of [_run_update] over
    [_run_episode_step]. *)
Definition rollout (runner_state : RunnerState)
  : RunnerState * list (Transition F I arr2) :=
  Arr.scan_n _run_episode_step runner_state (NUM_STEPS config).

(** The environment state and the hidden state inside a runner state. *)
Definition env_state_of (runner_state : RunnerState) : EnvState :=
  let '(_, env_state, _, _, _, _, _) := runner_state in env_state.
Definition hstate_of (runner_state : RunnerState) : HState :=
  let '(_, _, _, _, hstate, _, _) := runner_state in hstate.

End Train.
End EnvLoop.

(** ** The planetary boundaries of envs/AYS/AYS_Environment_MultiAgent.py

    The tensors of the environment object are lists, one entry (or one
    row) per agent; their cells are only compared, and stand here as
    rationals; an index out of range raises [IndexError], here [None]. *)

Module AYSEnv.

Local Open Scope Q_scope.

Definition Qltb (x y : Q) : bool := negb (Qle_bool y x).

(** The enumeration [Basins]: its declaration is not among the sources;
    these are the members that [AYS_Environment_MultiAgent.py] names. *)
Inductive Basins : Type :=
| GREEN_FP
| BLACK_FP
| A_PB_
| Y_SF_
| S_PB
| OUT_OF_TIME.

(** The attributes of [AYS_Environment] that the helpers read. *)
Record Env : Type := mkEnv {
  state : list (list Q);
  reward : list Q;
  A_PB : list Q;
  Y_SF : list Q;
  S_LIMIT : list Q;
  gamma : Q;
  max_steps : Z;
  t : Z
}.

(** [m[agent, j]]. *)
Definition at2 (m : list (list Q)) (agent j : nat) : option Q :=
  match nth_error m agent with
  | Some row => nth_error row j
  | None => None
  end.

(** [m[:, j]]. *)
Fixpoint column (m : list (list Q)) (j : nat) : option (list Q) :=
  match m with
  | [] => Some []
  | row :: rest =>
      match nth_error row j, column rest j with
      | Some x, Some xs => Some (x :: xs)
      | _, _ => None
      end
  end.

Section Helpers.
Variable self : Env.

Definition _inside_planetary_boundaries (agent : nat) : option bool :=
  match at2 (state self) agent 0, at2 (state self) agent 1,
        at2 (state self) agent 2 with
  | Some a, Some y, Some s =>
      match nth_error (A_PB self) agent with
      | None => None
      | Some a_pb =>
          if Qltb a_pb a then Some false
          else
            match nth_error (Y_SF self) agent with
            | None => None
            | Some y_sf =>
                if Qltb y y_sf then Some false
                else
                  match nth_error (S_LIMIT self) agent with
                  | None => None
                  | Some s_limit => Some (negb (Qltb s s_limit))
                  end
            end
      end
  | _, _, _ => None
  end.

(** [torch.all(col > bound)] for a column of shape [(n,)] and a bound of
    shape [(n, 1)]: the comparison broadcasts to all the pairs. *)
Definition all_pairs (cmp : Q -> Q -> bool) (col bound : list Q) : bool :=
  forallb (fun b => forallb (fun c => cmp c b) col) bound.

Definition _inside_planetary_boundaries_all : option bool :=
  match column (state self) 0, column (state self) 1,
        column (state self) 2 with
  | Some a, Some y, Some s =>
      Some (negb (all_pairs (fun c b => Qltb b c) a (A_PB self)
                  || all_pairs (fun c b => Qltb c b) y (Y_SF self)
                  || all_pairs (fun c b => Qltb c b) s (S_LIMIT self)))
  | _, _, _ => None
  end.

Definition _which_PB (agent : nat) : option Basins :=
  match at2 (state self) agent 0, nth_error (A_PB self) agent with
  | Some s0, Some a_pb =>
      if Qle_bool a_pb s0 then Some A_PB_
      else
        match at2 (state self) agent 1, nth_error (Y_SF self) agent with
        | Some s1, Some y_sf =>
            if Qle_bool s1 y_sf then Some Y_SF_
            else
              match at2 (state self) agent 2 with
              | Some s2 => if Qle_bool s2 0 then Some S_PB else Some OUT_OF_TIME
              | None => None
              end
        | _, _ => None
        end
  | _, _ => None
  end.

End Helpers.
End AYSEnv.

(** ** Concrete carriers and inputs *)

Module Examples.

(** The rationals as scalars: every operation is exact. *)
#[export] Instance Numeric_Q : Numeric Q := {
  flit := fun q => q;
  fadd := Qplus;
  fsub := Qminus;
  fmul := Qmult;
  fdiv := Qdiv;
  fneg := Qopp;
  fmax := fun x y => if Qle_bool x y then y else x;
  fmin := fun x y => if Qle_bool x y then x else y
}.

(** The scalars as terms: every operation builds the term of its
    result, so that a computed value shows how it was computed. *)
Inductive term : Type :=
| Lit (q : Q)
| NaN
| Add (x y : term)
| Sub (x y : term)
| Mul (x y : term)
| Div (x y : term)
| Neg (x : term)
| Max (x y : term)
| Min (x y : term)
| Exp (x : term)
| Sqrt (x : term)
| App (f : string) (x : term).

#[export] Instance Numeric_term : Numeric term := {
  flit := Lit;
  fadd := Add;
  fsub := Sub;
  fmul := Mul;
  fdiv := Div;
  fneg := Neg;
  fmax := Max;
  fmin := Min
}.

#[export] Instance Floating_term : Floating term := {
  fnan := NaN;
  fexp := Exp;
  fsqrt := Sqrt
}.

(** The rollout of the scenario: one environment, one agent, four
    steps, every reward 1, the episode over at the last step only;
    [v0] to [v3] are the value estimates. *)
Definition scenario_config : PPO_RNN.Config Q :=
  PPO_RNN.mkConfig 1 1 1 (99 # 100)%Q (95 # 100)%Q (2 # 10)%Q (1 # 2)%Q (1 # 100)%Q.

Definition scenario (v0 v1 v2 v3 : Q) : Transition Q unit arr2 :=
  mkTransition
    [[false]; [false]; [false]; [true]]
    [[false]; [false]; [false]; [true]]
    [[0%Z]; [0%Z]; [0%Z]; [0%Z]]
    [[v0]; [v1]; [v2]; [v3]]
    [[1%Q]; [1%Q]; [1%Q]; [1%Q]]
    [[0%Q]; [0%Q]; [0%Q]; [0%Q]]
    [[[]]; [[]]; [[]]; [[]]]
    [[tt]; [tt]; [tt]; [tt]].

(** A rollout of two steps of two environments in which no episode
    ends: the cell of step [t] and environment [e] has the reward
    [1 + e] and the value estimate [v t e]. *)
Definition open_config : PPO_RNN.Config Q :=
  PPO_RNN.mkConfig 2 1 1 (99 # 100)%Q (95 # 100)%Q (2 # 10)%Q (1 # 2)%Q (1 # 100)%Q.

Definition open_rollout (v00 v01 v10 v11 : Q) : Transition Q unit arr2 :=
  mkTransition
    [[false; false]; [false; false]]
    [[false; false]; [false; false]]
    [[0%Z; 1%Z]; [1%Z; 0%Z]]
    [[v00; v01]; [v10; v11]]
    [[1%Q; 2%Q]; [1%Q; 2%Q]]
    [[0%Q; 0%Q]; [0%Q; 0%Q]]
    [[[]; []]; [[]; []]]
    [[tt; tt]; [tt; tt]].

(** Two steps of two environments in which the agent of the first
    environment is done at the first step and no episode ends. *)
Definition agent_done_in_open_episode : Transition Q unit arr2 :=
  mkTransition
    [[false; false]; [false; false]]
    [[true; false]; [false; false]]
    [[0%Z; 0%Z]; [0%Z; 0%Z]]
    [[0%Q; 0%Q]; [0%Q; 0%Q]]
    [[0%Q; 0%Q]; [0%Q; 0%Q]]
    [[0%Q; 0%Q]; [0%Q; 0%Q]]
    [[[]; []]; [[]; []]]
    [[tt; tt]; [tt; tt]].

(** A small implementation of the primitives, to run the definitions on
    concrete inputs: the parameters are one weight, the network
    multiplies the first feature of every observation by it, the
    optimiser subtracts the gradient, the permutation of [n] indices is
    their reversal. *)
#[export] Instance Jax_small : PPO_RNN.Jax term unit term term nat (arr2 term) := {
  network_apply := fun p h x =>
    let v := map (map (fun cell => Mul p (hd (Lit 0) cell))) (fst x) in
    (h, v, v);
  pi_log_prob := fun d _ => d;
  pi_entropy := fun d => d;
  value_and_grad := fun f p => (f p, fst (f p));
  params := fun ts => ts;
  apply_gradients := fun ts g => Sub ts g;
  split := fun k => (2 * k, 2 * k + 1);
  permutation := fun _ n => rev (seq 0 n);
  info_fill := tt
}.

Definition small_config : PPO_RNN.Config term :=
  PPO_RNN.mkConfig 2 1 2 (Lit (99 # 100)) (Lit (95 # 100)) (Lit (2 # 10))
                   (Lit (1 # 2)) (Lit (1 # 100)).

(** Three steps of two environments; the cell of step [t] and
    environment [e] holds the number [10 * t + e]. *)
Definition numbered : arr2 term :=
  [[Lit 0; Lit 1]; [Lit 10; Lit 11]; [Lit 20; Lit 21]].

Definition small_traj : Transition term unit arr2 :=
  mkTransition
    [[false; false]; [false; false]; [false; true]]
    [[false; false]; [false; true]; [false; true]]
    [[0%Z; 1%Z]; [10%Z; 11%Z]; [20%Z; 21%Z]]
    numbered numbered numbered
    [[[Lit 0]; [Lit 1]]; [[Lit 10]; [Lit 11]]; [[Lit 20]; [Lit 21]]]
    [[tt; tt]; [tt; tt]; [tt; tt]].

(** A hidden state of two environments and two features. *)
Definition small_hstate : Nd.ndarray term :=
  Nd.mk [2; 2] [Lit 100; Lit 101; Lit 110; Lit 111].

(** Collaborators of the training loop in which the graph state counts
    the environment steps: the reset gives 0 and every step adds 1. *)
#[export] Instance Counting :
  EnvLoop.Collaborators term unit nat nat nat nat nat nat
                        nat nat nat nat nat unit unit nat := {
  PRNGKey := fun seed => seed;
  split := fun k => (2 * k, 2 * k + 1);
  split_reshape := fun k _ _ => k;
  actor_initialise := fun k => (0, 0);
  actor_act := fun ts h _ _ k => (h, [], [], [], k, tt, tt);
  actor_update := fun us _ => us;
  vreset := fun _ => (0, 0, 0);
  vstep := fun _ es _ g => (0, S es, 0, 0, 0, S g);
  batchify_obs := fun _ => [];
  batchify_done := fun _ => [];
  batchify_reward := fun _ => [];
  unbatchify := fun _ => 0;
  done_all := fun _ => [];
  swap_info := fun _ => [];
  num_agents := 1;
  metric_of := fun _ n => n
}.

Definition counting_config : EnvLoop.Config := EnvLoop.mkConfig 0 1 1 3 2.

(** Reward functions that count their calls in the environment. *)
#[export] Instance Rewards_multi : AYS.MultiAgent.Rewards nat := {
  reward_final_state := fun _ => S;
  reward_rel_share := fun _ => S;
  reward_desirable_region := fun _ => S;
  reward_distance_PB := fun _ => S;
  reward_distance_PB_new := fun _ => S;
  reward_distance_PB_extended := fun _ => S;
  reward_survive := fun _ => S;
  reward_survive_cost := fun _ => S;
  policy_cost := fun _ => S;
  simple := fun _ => S;
  filename := "AYS_Environment_MultiAgent.py"
}.

Definition small_runner_state (env_state : nat)
  : PPO_RNN.RunnerState (F := term) (TrainState := term) (Key := nat) nat :=
  (Lit 1, env_state, [[Lit 0]; [Lit 1]], [false; true], small_hstate, 7).

(** Configurations without discounting and without trace. *)
Definition gamma_zero_config : PPO_RNN.Config Q :=
  PPO_RNN.mkConfig 1 1 1 0%Q (95 # 100)%Q (2 # 10)%Q (1 # 2)%Q (1 # 100)%Q.
Definition lambda_zero_config : PPO_RNN.Config Q :=
  PPO_RNN.mkConfig 1 1 1 (99 # 100)%Q 0%Q (2 # 10)%Q (1 # 2)%Q (1 # 100)%Q.

(** The first and the last slice of the scenario with all values zero. *)
Definition scenario_first : Transition Q unit arr1 :=
  mkTransition [false] [false] [0%Z] [0%Q] [1%Q] [0%Q] [[]] [tt].
Definition scenario_last : Transition Q unit arr1 :=
  mkTransition [true] [true] [0%Z] [0%Q] [1%Q] [0%Q] [[]] [tt].

End Examples.

(* ===================================================================== *)
(** * Part II: properties                                                 *)
(* ===================================================================== *)

Import Examples.

(** ** Arrays *)

Module ArrFacts.

Lemma map2_map_l {A A' B C : Type} (f : A' -> B -> C) (g : A -> A')
  (xs : list A) (ys : list B) :
  Arr.map2 f (map g xs) ys = Arr.map2 (fun x y => f (g x) y) xs ys.
Proof.
  revert ys. induction xs as [|x xs IH]; intros [|y ys]; simpl; try reflexivity.
  now rewrite IH.
Qed.

Lemma map2_map_r {A B B' C : Type} (f : A -> B' -> C) (g : B -> B')
  (xs : list A) (ys : list B) :
  Arr.map2 f xs (map g ys) = Arr.map2 (fun x y => f x (g y)) xs ys.
Proof.
  revert ys. induction xs as [|x xs IH]; intros [|y ys]; simpl; try reflexivity.
  now rewrite IH.
Qed.

Lemma map2_ext {A B C : Type} (f g : A -> B -> C) (xs : list A) (ys : list B) :
  (forall x y, f x y = g x y) -> Arr.map2 f xs ys = Arr.map2 g xs ys.
Proof.
  intros E. revert ys.
  induction xs as [|x xs IH]; intros [|y ys]; simpl; try reflexivity.
  now rewrite E, IH.
Qed.

Lemma map2_length {A B C : Type} (f : A -> B -> C) (xs : list A) (ys : list B) :
  length (Arr.map2 f xs ys) = Nat.min (length xs) (length ys).
Proof.
  revert ys. induction xs as [|x xs IH]; intros [|y ys]; simpl; try reflexivity.
  now rewrite IH.
Qed.

Lemma map2_nth_error {A B C : Type} (f : A -> B -> C) (xs : list A)
  (ys : list B) (n : nat) (x : A) (y : B) :
  nth_error xs n = Some x -> nth_error ys n = Some y ->
  nth_error (Arr.map2 f xs ys) n = Some (f x y).
Proof.
  revert ys n.
  induction xs as [|x0 xs IH]; intros [|y0 ys] [|n]; simpl; try discriminate.
  - intros [= ->] [= ->]. reflexivity.
  - apply IH.
Qed.

Lemma combine_nth_error {A B : Type} (xs : list A) (ys : list B) (n : nat)
  (p : A * B) :
  nth_error (combine xs ys) n = Some p ->
  nth_error xs n = Some (fst p) /\ nth_error ys n = Some (snd p).
Proof.
  revert ys n.
  induction xs as [|x xs IH]; intros [|y ys] [|n]; simpl; try discriminate.
  - intros [= <-]. split; reflexivity.
  - apply IH.
Qed.

Lemma Forall2_map {A B : Type} (R : A -> A -> Prop) (R' : B -> B -> Prop)
  (g : A -> B) (l l' : list A) :
  Forall2 R l l' ->
  (forall p p', R p p' -> R' (g p) (g p')) ->
  Forall2 R' (map g l) (map g l').
Proof.
  intros HF Hg. induction HF; simpl; constructor; auto.
Qed.

(** The carry of a scan that ran for any number of rounds satisfies what
    the initial carry satisfies and every round preserves. *)
Lemma scan_n_invariant {C Y : Type} (P : C -> Prop) (f : C -> unit -> C * Y)
  (n : nat) :
  (forall c, P c -> P (fst (f c tt))) ->
  forall init, P init -> P (fst (Arr.scan_n f init n)).
Proof.
  intros Hf. induction n as [|n IH]; intros init Hinit; simpl.
  - exact Hinit.
  - specialize (Hf init Hinit). destruct (f init tt) as [c y]. simpl in Hf.
    specialize (IH c Hf). destruct (Arr.scan_n f c n) as [c' ys]. exact IH.
Qed.

End ArrFacts.

(** ** The advantage estimator *)

Module GaeFacts.
Import PPO_RNN ArrFacts.

Section Gae.
Context {F I : Type} `{Numeric F}.
Variable config : Config F.

(** One round of the scan body, in the words of the recurrence. *)
Lemma _get_advantages_recurrence (gae next_value : arr1 F)
  (tr : Transition F I arr1) :
  _get_advantages (I := I) config (gae, next_value) tr =
  let g := recurrence_gae config
             (recurrence_delta config (reward tr) next_value (global_done tr)
                               (value tr))
             (global_done tr) gae in
  ((g, value tr), g).
Proof.
  unfold _get_advantages, recurrence_gae, recurrence_delta. simpl.
  rewrite !map_map, !map2_map_l, !map2_map_r. reflexivity.
Qed.

(** What the reverse scan carries out of a suffix of the rollout: the
    advantage and the value of the first step of the suffix, or the
    initial pair when the suffix is empty. *)
Lemma scan_reverse_carry (init : arr1 F * arr1 F)
  (rows : list (Transition F I arr1)) (c : arr1 F * arr1 F)
  (ys : list (arr1 F)) :
  Arr.scan_reverse (_get_advantages config) init rows = (c, ys) ->
  match rows with
  | [] => c = init /\ ys = []
  | tr :: _ => exists g ys', ys = g :: ys' /\ c = (g, value tr)
  end.
Proof.
  destruct rows as [|tr rest]; simpl.
  - intros [= <- <-]. split; reflexivity.
  - destruct (Arr.scan_reverse (_get_advantages config) init rest)
      as [[gae nv] ys0].
    rewrite _get_advantages_recurrence. simpl. intros [= <- <-].
    eexists _, _. split; reflexivity.
Qed.

Lemma scan_reverse_length (init : arr1 F * arr1 F)
  (rows : list (Transition F I arr1)) :
  length (snd (Arr.scan_reverse (_get_advantages config) init rows))
  = length rows.
Proof.
  induction rows as [|tr rest IH]; simpl; [reflexivity|].
  destruct (Arr.scan_reverse (_get_advantages config) init rest) as [c ys].
  destruct (_get_advantages config c tr) as [c' y]. simpl in *. now rewrite IH.
Qed.

(** The advantages obey the recurrence at every index [t]: the next
    value and the previous advantage are those of index [t + 1], or the
    initial pair after the last index. *)
Lemma scan_reverse_recurrence (z last_val : arr1 F)
  (rows : list (Transition F I arr1)) (t : nat) (tr : Transition F I arr1) :
  nth_error rows t = Some tr ->
  nth_error (snd (Arr.scan_reverse (_get_advantages config) (z, last_val) rows)) t =
  Some (recurrence_gae config
          (recurrence_delta config (reward tr)
             (match nth_error rows (S t) with
              | Some tr' => value tr'
              | None => last_val
              end)
             (global_done tr) (value tr))
          (global_done tr)
          (match nth_error
                   (snd (Arr.scan_reverse (_get_advantages config)
                                          (z, last_val) rows)) (S t) with
           | Some g => g
           | None => z
           end)).
Proof.
  revert t. induction rows as [|tr0 rest IH]; intros t Ht.
  - destruct t; discriminate.
  - simpl.
    destruct (Arr.scan_reverse (_get_advantages config) (z, last_val) rest)
      as [[gae nv] ys] eqn:E.
    apply scan_reverse_carry in E.
    rewrite _get_advantages_recurrence. simpl in *.
    destruct t as [|t]; simpl in Ht |- *.
    + injection Ht as <-.
      destruct rest as [|tr1 rest'].
      * destruct E as [[= -> ->] ->]. reflexivity.
      * destruct E as (g & ys' & -> & [= -> ->]). reflexivity.
    + apply IH. exact Ht.
Qed.

(** [jnp.zeros_like] gives one zero per cell. *)
Lemma zeros_like_repeat (x : arr1 F) :
  zeros_like x = repeat (flit 0) (length x).
Proof.
  unfold zeros_like. induction x as [|a x IH]; simpl; [reflexivity|].
  now rewrite IH.
Qed.

(** A slice of the batch holds the rows of the leaves at its index. *)
Lemma unstack_nth_error (traj_batch : Transition F I arr2) (t : nat)
  (tr : Transition F I arr1) :
  nth_error (unstack traj_batch) t = Some tr ->
  nth_error (global_done traj_batch) t = Some (global_done tr)
  /\ nth_error (done traj_batch) t = Some (done tr)
  /\ nth_error (value traj_batch) t = Some (value tr)
  /\ nth_error (reward traj_batch) t = Some (reward tr).
Proof.
  unfold unstack. rewrite nth_error_map.
  destruct (nth_error _ t) as [p|] eqn:E; [|discriminate].
  destruct p as (gd & d & ac & v & r & lp & o & i). simpl. intros [= <-]. simpl.
  repeat (apply combine_nth_error in E; simpl in E;
          let E1 := fresh "E" in destruct E as [E1 E]).
  repeat split; assumption.
Qed.

End Gae.
End GaeFacts.

(** C1: the advantages are computed backwards in time. For every
    trajectory batch and bootstrap value, the advantage at a time step
    is [delta + gamma * lambda * (1 - done) * gae_prev] with
    [delta = reward + gamma * next_value * (1 - done) - value], where
    [next_value] and [gae_prev] are the value and the advantage of the
    following step, or the bootstrap value and one zero per environment
    at the last step, and the target is the advantage plus the value;
    [done] is the flag [global_done] the code reads.  In the scenario of
    four steps with rewards 1, the episode over at the last step only,
    gamma 0.99 and lambda 0.95, the four advantages are those of the
    recursion, for any value estimates and any bootstrap value.  In a
    rollout of two environments in which no episode ends, the advantage
    of the last step is [reward + gamma * bootstrap - value]: the
    bootstrap value enters and the initial advantage adds nothing. *)
Theorem gae_reverse_recurrence :
  (forall (F I : Type) (N : Numeric F) (config : PPO_RNN.Config F)
          (traj_batch : Transition F I arr2) (last_val : arr1 F),
      let rows := unstack traj_batch in
      let advantages := fst (PPO_RNN._calculate_gae config traj_batch last_val) in
      let targets := snd (PPO_RNN._calculate_gae config traj_batch last_val) in
      length advantages = length rows
      /\ forall t tr, nth_error rows t = Some tr ->
           let next_value :=
             match nth_error rows (S t) with
             | Some tr' => value tr'
             | None => last_val
             end in
           let gae_prev :=
             match nth_error advantages (S t) with
             | Some g => g
             | None => repeat (flit 0) (length last_val)
             end in
           let delta :=
             PPO_RNN.recurrence_delta config (reward tr) next_value
                                      (global_done tr) (value tr) in
           let gae := PPO_RNN.recurrence_gae config delta (global_done tr) gae_prev in
           nth_error advantages t = Some gae
           /\ nth_error targets t = Some (Arr.map2 fadd gae (value tr)))
  /\ (forall v0 v1 v2 v3 bootstrap : Q,
        exists a0 a1 a2 a3 : Q,
          fst (PPO_RNN._calculate_gae Examples.scenario_config
                 (Examples.scenario v0 v1 v2 v3) [bootstrap])
          = [[a0]; [a1]; [a2]; [a3]]
          /\ (a3 == 1 - v3)%Q
          /\ (a2 == (1 + (99 # 100) * v3 - v2) + (99 # 100) * (95 # 100) * a3)%Q
          /\ (a1 == (1 + (99 # 100) * v2 - v1) + (99 # 100) * (95 # 100) * a2)%Q
          /\ (a0 == (1 + (99 # 100) * v1 - v0) + (99 # 100) * (95 # 100) * a1)%Q)
  /\ (forall v00 v01 v10 v11 b0 b1 : Q,
        exists a00 a01 a10 a11 : Q,
          fst (PPO_RNN._calculate_gae Examples.open_config
                 (Examples.open_rollout v00 v01 v10 v11) [b0; b1])
          = [[a00; a01]; [a10; a11]]
          /\ (a10 == 1 + (99 # 100) * b0 - v10)%Q
          /\ (a11 == 2 + (99 # 100) * b1 - v11)%Q
          /\ (a00 == (1 + (99 # 100) * v10 - v00)
                     + (99 # 100) * (95 # 100) * a10)%Q
          /\ (a01 == (2 + (99 # 100) * v11 - v01)
                     + (99 # 100) * (95 # 100) * a11)%Q).
Proof.
  split.
  - intros F I N config traj_batch last_val rows advantages targets.
    assert (Hadv : advantages
                   = snd (Arr.scan_reverse (PPO_RNN._get_advantages config)
                            (PPO_RNN.zeros_like last_val, last_val) rows)).
    { subst advantages rows. unfold PPO_RNN._calculate_gae.
      destruct (Arr.scan_reverse _ _ _) as [c ys]. reflexivity. }
    assert (Htar : targets = PPO_RNN.amap2 fadd advantages (value traj_batch)).
    { subst targets advantages. unfold PPO_RNN._calculate_gae.
      destruct (Arr.scan_reverse _ _ _) as [c ys]. reflexivity. }
    split.
    + rewrite Hadv. apply GaeFacts.scan_reverse_length.
    + intros t tr Ht. cbv zeta.
      assert (Hgae := GaeFacts.scan_reverse_recurrence config
                        (PPO_RNN.zeros_like last_val) last_val rows t Ht).
      rewrite <- Hadv in Hgae.
      rewrite GaeFacts.zeros_like_repeat in Hgae. split; [exact Hgae|].
      rewrite Htar. unfold PPO_RNN.amap2.
      apply ArrFacts.map2_nth_error; [exact Hgae|].
      apply (GaeFacts.unstack_nth_error traj_batch t Ht).
  - split.
    + intros v0 v1 v2 v3 b. eexists _, _, _, _. split; [reflexivity|].
      unfold PPO_RNN.of_int, PPO_RNN.one_minus; simpl.
      repeat split; ring.
    + intros v00 v01 v10 v11 b0 b1. eexists _, _, _, _.
      split; [reflexivity|].
      unfold PPO_RNN.of_int, PPO_RNN.one_minus; simpl.
      repeat split; ring.
Qed.

(** The witness of C1: the last step of the rollout of two environments
    in which no episode ends, with the bootstrap values 5 and 7; the
    advantage after the last step is the zero of each environment. *)
Lemma gae_reverse_recurrence_witness :
  nth_error (unstack (open_rollout 1 2 3 4)) 1
  = Some (mkTransition [false; false] [false; false] [1%Z; 0%Z] [3%Q; 4%Q]
                       [1%Q; 2%Q] [0%Q; 0%Q] [[]; []] [tt; tt])
  /\ nth_error
       (fst (PPO_RNN._calculate_gae open_config (open_rollout 1 2 3 4)
                                    [5%Q; 7%Q])) 1
     = Some (PPO_RNN.recurrence_gae open_config
               (PPO_RNN.recurrence_delta open_config [1%Q; 2%Q] [5%Q; 7%Q]
                                         [false; false] [3%Q; 4%Q])
               [false; false] [0%Q; 0%Q]).
Proof.
  split; [reflexivity|].
  exact (proj1 (proj2 (proj1 gae_reverse_recurrence Q unit _ open_config
                         (open_rollout 1 2 3 4) [5%Q; 7%Q])
                      1 _ eq_refl)).
Defined.

(** ** Which done flag the estimator reads *)

Module DoneFacts.
Import PPO_RNN ArrFacts.

Section Done.
Context {F I : Type} `{Numeric F}.
Variable config : Config F.

Lemma _get_advantages_inputs (c : arr1 F * arr1 F) (tr tr' : Transition F I arr1) :
  same_gae_inputs tr tr' ->
  _get_advantages config c tr = _get_advantages config c tr'.
Proof.
  intros (Hg & Hv & Hr). destruct c as [gae nv].
  unfold _get_advantages. simpl. now rewrite Hg, Hv, Hr.
Qed.

Lemma scan_reverse_inputs (init : arr1 F * arr1 F)
  (rows rows' : list (Transition F I arr1)) :
  Forall2 same_gae_inputs rows rows' ->
  Arr.scan_reverse (_get_advantages config) init rows
  = Arr.scan_reverse (_get_advantages config) init rows'.
Proof.
  induction 1 as [|tr tr' rows rows' Htr _ IH]; simpl; [reflexivity|].
  rewrite IH. destruct (Arr.scan_reverse _ init rows') as [c ys].
  now rewrite (_get_advantages_inputs c Htr).
Qed.

Lemma combine_middle {A B X : Type} (xs : list A) (d d' : list B) (rest : list X) :
  length d = length d' ->
  Forall2 (fun p p' => fst p = fst p' /\ snd (snd p) = snd (snd p'))
          (combine xs (combine d rest)) (combine xs (combine d' rest)).
Proof.
  revert d d' rest.
  induction xs as [|x xs IH]; intros [|b d] [|b' d'] [|r rest] Hlen;
    simpl in *; try discriminate; try constructor.
  - split; reflexivity.
  - apply IH. now injection Hlen.
Qed.

Lemma unstack_with_done (traj_batch : Transition F I arr2) (d : arr2 bool) :
  length d = length (done traj_batch) ->
  Forall2 same_gae_inputs (unstack (with_done d traj_batch)) (unstack traj_batch).
Proof.
  intros Hlen. unfold unstack, with_done. simpl.
  pose proof (@combine_middle _ _ _ (global_done traj_batch) _ _
                (combine (action traj_batch)
                   (combine (value traj_batch)
                      (combine (reward traj_batch)
                         (combine (log_prob traj_batch)
                            (combine (obs traj_batch) (info traj_batch))))))
                Hlen) as HF.
  apply Forall2_map with (1 := HF).
  intros p p' [H1 H2].
  destruct p as (gd & b & ac & v & r & lp & o & i).
  destruct p' as (gd' & b' & ac' & v' & r' & lp' & o' & i').
  simpl in *. subst gd'. injection H2 as <- <- <- <- <- <-.
  repeat split.
Qed.

End Done.
End DoneFacts.

(** C3, as stated, fails: were the done flag of the recurrence the
    per-agent flag, the step in which the agent is done while the
    episode goes on would get the advantage 0; the code goes on from the
    next step.  In two steps of two environments with rewards and values
    0 and bootstrap values 1, the advantage of the first step of the
    first environment is [gamma * lambda * gamma], not 0. *)
Lemma gae_per_agent_done_counterexample :
  ~ (forall (traj_batch : Transition Q unit arr2) (last_val : arr1 Q)
            (t : nat) (tr : Transition Q unit arr1),
        nth_error (unstack traj_batch) t = Some tr ->
        let advantages :=
          fst (PPO_RNN._calculate_gae scenario_config traj_batch last_val) in
        let next_value :=
          match nth_error (unstack traj_batch) (S t) with
          | Some tr' => value tr'
          | None => last_val
          end in
        let gae_prev :=
          match nth_error advantages (S t) with
          | Some g => g
          | None => PPO_RNN.zeros_like last_val
          end in
        nth_error advantages t
        = Some (PPO_RNN.recurrence_gae scenario_config
                  (PPO_RNN.recurrence_delta scenario_config (reward tr)
                     next_value (done tr) (value tr))
                  (done tr) gae_prev)).
Proof.
  intros Hclaim.
  specialize (Hclaim agent_done_in_open_episode [1%Q; 1%Q] 0 _ eq_refl).
  vm_compute in Hclaim. discriminate Hclaim.
Qed.

(** C3, amended: the done flag of the recurrence is the whole-episode
    flag [global_done], which the rollout step fills with
    [done["__all__"]] repeated for every agent next to the per-agent
    flags [done]; the per-agent flags have no influence on the
    advantages and targets. *)
Theorem gae_reads_global_done :
  (forall (F I : Type) (N : Numeric F) (config : PPO_RNN.Config F)
          (traj_batch : Transition F I arr2) (last_val : arr1 F)
          (per_agent : arr2 bool),
      length per_agent = length (done traj_batch) ->
      PPO_RNN._calculate_gae config (with_done per_agent traj_batch) last_val
      = PPO_RNN._calculate_gae config traj_batch last_val)
  /\ (forall (F I : Type) (N : Numeric F) (config : PPO_RNN.Config F)
             (gae next_value : arr1 F) (tr : Transition F I arr1),
         PPO_RNN._get_advantages config (gae, next_value) tr
         = let g := PPO_RNN.recurrence_gae config
                      (PPO_RNN.recurrence_delta config (reward tr) next_value
                                                (global_done tr) (value tr))
                      (global_done tr) gae in
           ((g, value tr), g))
  /\ (forall (F I TrainState EnvState GraphState HState Key Keys ObsDict
              ActDict RewDict DoneDict InfoDict Pi SpecKey Metric : Type)
             (C : EnvLoop.Collaborators F I TrainState EnvState GraphState
                    HState Key Keys ObsDict ActDict RewDict DoneDict InfoDict
                    Pi SpecKey Metric)
             (config : EnvLoop.Config) (runner_state : EnvLoop.RunnerState),
         exists d : DoneDict,
           global_done (snd (EnvLoop._run_episode_step config runner_state tt))
           = repeat (EnvLoop.done_all d) EnvLoop.num_agents
           /\ done (snd (EnvLoop._run_episode_step config runner_state tt))
              = EnvLoop.batchify_done d).
Proof.
  split; [|split].
  - intros F I N config traj_batch last_val per_agent Hlen.
    unfold PPO_RNN._calculate_gae.
    rewrite (DoneFacts.scan_reverse_inputs config _
               (DoneFacts.unstack_with_done traj_batch per_agent Hlen)).
    reflexivity.
  - intros. apply GaeFacts._get_advantages_recurrence.
  - intros. destruct runner_state as [[[[[[ts es] lobs] ldone] h] g] key].
    unfold EnvLoop._run_episode_step.
    destruct (EnvLoop.actor_act _ _ _ _ _)
      as [[[[[[h' action_n] log_prob_n] value_n] key'] pi] sk].
    destruct (EnvLoop.split key') as [key'' _key].
    destruct (EnvLoop.vstep _ _ _ _) as [[[[[o es'] r] d] i] g'].
    exists d. split; reflexivity.
Qed.

Lemma gae_reads_global_done_witness :
  PPO_RNN._calculate_gae open_config
    (with_done [[false; false]; [false; true]] agent_done_in_open_episode)
    [1%Q; 1%Q]
  = PPO_RNN._calculate_gae open_config agent_done_in_open_episode [1%Q; 1%Q].
Proof.
  apply (proj1 gae_reads_global_done). reflexivity.
Defined.

(** ** The masked reductions of the loss *)

Module LossFacts.
Import PPO_RNN ArrFacts.

Section Mask.
Context {F : Type} `{Numeric F}.

(** A cell whose flag is true is replaced by zero before the sum. *)
Lemma where_done (x : F) : where_ (one_minus true) x = flit 0.
Proof. reflexivity. Qed.

Lemma where_not_done (x : F) : where_ (one_minus false) x = x.
Proof. reflexivity. Qed.

Lemma masked_row (ds : arr1 bool) (xs ys : arr1 F) :
  Arr.Forall3 (fun (d : bool) a b => d = false -> a = b) ds xs ys ->
  Arr.map2 where_ (map one_minus ds) xs = Arr.map2 where_ (map one_minus ds) ys.
Proof.
  induction 1 as [|d a b ds xs ys Hd _ IH]; simpl; [reflexivity|].
  rewrite IH. destruct d.
  - now rewrite !where_done.
  - now rewrite (Hd eq_refl).
Qed.

Lemma masked_cells (done : arr2 bool) (x y : arr2 F) :
  agree_off_done done x y ->
  amap2 where_ (amap one_minus done) x = amap2 where_ (amap one_minus done) y.
Proof.
  unfold agree_off_done, amap2, amap.
  induction 1 as [|d a b ds xs ys Hd _ IH]; simpl; [reflexivity|].
  now rewrite IH, (masked_row Hd).
Qed.

Lemma amean_where_agree (done : arr2 bool) (x y : arr2 F) :
  agree_off_done done x y ->
  amean_where x (amap one_minus done) = amean_where y (amap one_minus done).
Proof.
  intros Hxy. unfold amean_where. now rewrite (masked_cells Hxy).
Qed.

End Mask.
End LossFacts.

(** C4: a time step whose per-agent done flag is true adds nothing to the
    three masked means. Whatever the unreduced value loss, policy loss
    and entropy are at the cells whose flag is true, the value-loss
    mean, the policy-loss mean and the entropy mean are the same; and
    the three reductions that [_loss_fn] returns are these masked means
    of its unreduced arrays, under the flag [done] of the minibatch. *)
Theorem masked_timesteps_contribute_zero :
  (forall (F : Type) (N : Numeric F) (done : arr2 bool)
          (value_losses value_losses' loss_actor loss_actor'
             entropy entropy' : arr2 F),
      PPO_RNN.agree_off_done done value_losses value_losses' ->
      PPO_RNN.agree_off_done done loss_actor loss_actor' ->
      PPO_RNN.agree_off_done done entropy entropy' ->
      PPO_RNN.masked_losses value_losses loss_actor entropy done
      = PPO_RNN.masked_losses value_losses' loss_actor' entropy' done)
  /\ (forall (F I Params TrainState Key Distr : Type) (N : Numeric F)
            (Fl : Floating F) (J : PPO_RNN.Jax F I Params TrainState Key Distr)
            (config : PPO_RNN.Config F) (params : Params)
            (init_hstate : Nd.ndarray F) (traj_batch : Transition F I arr2)
            (gae targets : arr2 F),
        let '(_, pi, value) :=
          PPO_RNN.network_apply params (Nd.squeeze_axis0 init_hstate)
                                (obs traj_batch, done traj_batch) in
        snd (PPO_RNN._loss_fn config params init_hstate traj_batch gae targets)
        = PPO_RNN.masked_losses
            (PPO_RNN.value_losses_max config value (Utils.value traj_batch) targets)
            (PPO_RNN.loss_actor_unreduced config
               (PPO_RNN.pi_log_prob pi (action traj_batch))
               (log_prob traj_batch) gae)
            (PPO_RNN.pi_entropy pi)
            (done traj_batch)).
Proof.
  split.
  - intros F N done v v' a a' e e' Hv Ha He. unfold PPO_RNN.masked_losses.
    now rewrite (LossFacts.amean_where_agree Hv),
                (LossFacts.amean_where_agree Ha),
                (LossFacts.amean_where_agree He).
  - intros. unfold PPO_RNN._loss_fn.
    destruct (PPO_RNN.network_apply _ _ _) as [[h pi] value].
    destruct (PPO_RNN.masked_losses _ _ _ _) as [[vl la] en]. reflexivity.
Qed.

(** The witness of C4: a NaN and two other values at the one cell whose
    flag is true. *)
Lemma masked_timesteps_contribute_zero_witness :
  PPO_RNN.masked_losses [[Lit 1; NaN]] [[Lit 2; Lit 7]] [[Lit 3; Lit 9]]
                        [[false; true]]
  = PPO_RNN.masked_losses [[Lit 1; Lit 5]] [[Lit 2; Lit 6]] [[Lit 3; Lit 8]]
                          [[false; true]].
Proof.
  apply (proj1 masked_timesteps_contribute_zero);
    repeat constructor; discriminate.
Defined.

(** ** What [update] leaves untouched *)

Module UpdateFacts.
Import PPO_RNN ArrFacts.

Section Update.
Context {F I Params TrainState Key Distr EnvState : Type}.
Context `{Numeric F} `{Floating F} `{Jax F I Params TrainState Key Distr}.
Variable config : Config F.

(** An epoch hands on the advantages and the targets as they are, and
    the hidden state reshaped and squeezed. *)
Lemma _update_epoch_carry (train_state : TrainState) (hstate : Nd.ndarray F)
  (traj_batch : Transition F I arr2) (advantages targets : arr2 F) (key : Key) :
  exists train_state' traj_batch' loss,
    _update_epoch config
      (train_state, hstate, traj_batch, advantages, targets, key) tt
    = ((train_state',
        Nd.squeeze (Nd.reshape_1_n (NUM_ENVS config) hstate),
        traj_batch', advantages, targets, fst (split key)),
       loss).
Proof.
  unfold _update_epoch. destruct (split key) as [key' _key]. simpl.
  destruct (Arr.scan _ _ _) as [train_state' total_loss].
  eexists _, _, _. reflexivity.
Qed.

Lemma squeeze_reshape_data (n : nat) (h : Nd.ndarray F) :
  Nd.data (Nd.squeeze (Nd.reshape_1_n n h)) = Nd.data h.
Proof. reflexivity. Qed.

(** With several environments and a feature axis that is not of length
    one, the reshape followed by the squeeze restores the shape too. *)
Lemma squeeze_reshape_id (n d : nat) (h : Nd.ndarray F) :
  Nd.shape h = [n; d] -> length (Nd.data h) = n * d -> 2 <= n -> d <> 1 ->
  Nd.squeeze (Nd.reshape_1_n n h) = h.
Proof.
  intros Hs Hl Hn Hd. destruct h as [sh dt]. simpl in *. subst sh.
  unfold Nd.squeeze, Nd.reshape_1_n, Nd.size. simpl. rewrite Hl.
  rewrite Nat.mul_comm, Nat.div_mul by lia.
  destruct (Nat.eqb_spec n 1) as [->|_]; [lia|].
  destruct (Nat.eqb_spec d 1) as [->|_]; [congruence|]. reflexivity.
Qed.

Lemma epochs_hstate (P : Nd.ndarray F -> Prop) (n : nat)
  (us : UpdateState (F := F) (I := I) (TrainState := TrainState) (Key := Key)) :
  (forall h, P h -> P (Nd.squeeze (Nd.reshape_1_n (NUM_ENVS config) h))) ->
  carried_hstate P us ->
  carried_hstate P (fst (Arr.scan_n (_update_epoch config) us n)).
Proof.
  intros HP. apply scan_n_invariant.
  intros [[[[[ts h] tb] adv] targ] key] Hh.
  destruct (_update_epoch_carry ts h tb adv targ key) as (ts' & tb' & l & ->).
  simpl in *. auto.
Qed.

(** [update] in terms of the carry of its epochs. *)
Lemma update_unfold (train_state : TrainState) (env_state : EnvState)
  (last_obs : arr2 F) (last_done : arr1 bool) (hstate : Nd.ndarray F)
  (key : Key) (traj_batch : Transition F I arr2) :
  exists advantages targets,
    update config (train_state, env_state, last_obs, last_done, hstate, key)
           traj_batch
    = let '(train_state', hstate', _, _, _, key') :=
        fst (Arr.scan_n (_update_epoch config)
               (train_state, hstate, traj_batch, advantages, targets, key)
               (UPDATE_EPOCHS config)) in
      (train_state', env_state, last_obs, last_done, hstate', key').
Proof.
  unfold update.
  destruct (network_apply _ _ _) as [[h' pi] last_val].
  destruct (_calculate_gae _ _ _) as [advantages targets].
  exists advantages, targets.
  destruct (Arr.scan_n _ _ _) as [[[[[[ts' hs'] tb'] adv'] targ'] key'] loss].
  reflexivity.
Qed.

End Update.
End UpdateFacts.

(** C9: the frame of [update]. The environment state, the last
    observation and the last done flags of the returned runner state are
    those of the input, and the returned hidden state holds the data of
    the input hidden state, cell for cell; when the input hidden state has
    the shape [(NUM_ENVS, d)] with at least two environments and [d]
    other than one, it is returned as it is. *)
Theorem update_frame :
  forall (F I Params TrainState Key Distr EnvState : Type) (N : Numeric F)
         (Fl : Floating F) (J : PPO_RNN.Jax F I Params TrainState Key Distr)
         (config : PPO_RNN.Config F)
         (runner_state : PPO_RNN.RunnerState EnvState)
         (traj_batch : Transition F I arr2),
    let returned := PPO_RNN.update config runner_state traj_batch in
    PPO_RNN.env_state_of returned = PPO_RNN.env_state_of runner_state
    /\ PPO_RNN.last_obs_of returned = PPO_RNN.last_obs_of runner_state
    /\ PPO_RNN.last_done_of returned = PPO_RNN.last_done_of runner_state
    /\ Nd.data (PPO_RNN.hstate_of returned)
       = Nd.data (PPO_RNN.hstate_of runner_state)
    /\ (forall d,
           Nd.shape (PPO_RNN.hstate_of runner_state)
           = [PPO_RNN.NUM_ENVS config; d] ->
           length (Nd.data (PPO_RNN.hstate_of runner_state))
           = PPO_RNN.NUM_ENVS config * d ->
           2 <= PPO_RNN.NUM_ENVS config -> d <> 1 ->
           PPO_RNN.hstate_of returned = PPO_RNN.hstate_of runner_state).
Proof.
  intros F I Params TrainState Key Distr EnvState N Fl J config
         [[[[[ts env] lobs] ldone] h] key] traj_batch returned.
  destruct (UpdateFacts.update_unfold config ts env lobs ldone h key traj_batch)
    as (adv & targ & Hu).
  subst returned. rewrite Hu. clear Hu.
  pose proof (fun P HP =>
                @UpdateFacts.epochs_hstate F I Params TrainState Key Distr
                  N Fl J config P (PPO_RNN.UPDATE_EPOCHS config)
                  (ts, h, traj_batch, adv, targ, key) HP) as Hh.
  destruct (fst (Arr.scan_n _ _ _)) as [[[[[ts' h'] tb'] adv'] targ'] key'].
  simpl in *. repeat split.
  - apply (Hh (fun x => Nd.data x = Nd.data h)); [|reflexivity].
    intros x Hx. now rewrite UpdateFacts.squeeze_reshape_data.
  - intros d Hs Hl Hn Hd.
    apply (Hh (fun x => x = h)); [|reflexivity].
    intros x ->. now apply UpdateFacts.squeeze_reshape_id with (d := d).
Qed.

(** The witness of C9: two environments, two features, two epochs. *)
Lemma update_frame_witness :
  PPO_RNN.hstate_of (PPO_RNN.update small_config (small_runner_state 5) small_traj)
  = small_hstate.
Proof.
  apply (proj2 (proj2 (proj2 (proj2
           (@update_frame _ _ _ _ _ _ _ _ _ Jax_small small_config
              (small_runner_state 5) small_traj)))))
    with (d := 2); simpl; try reflexivity; lia.
Defined.

(** ** The minibatch shuffle *)

(** C2 at three steps of two environments, for the permutation [[1; 0]],
    with a hidden state of one feature and with one of two features.
    The hidden state, of shape [(1, 2, 1)] or [(1, 2, 2)], has its two
    environments exchanged.  The advantages, swapped to [(envs, steps)], keep their
    environments in place: row [e] of the result holds the advantages of
    environment [e] at the steps 1 and 0, and step 2 is gone.  Cut in two
    minibatches, the first holds step 1 and the second step 0 of both
    environments. *)
Theorem shuffle_takes_time_axis :
  forall (F I Params TrainState Key Distr : Type) (N : Numeric F)
         (Fl : Floating F) (J : PPO_RNN.Jax F I Params TrainState Key Distr)
         (h0 h1 h00 h01 h10 h11 a00 a01 a10 a11 a20 a21 : F)
         (traj_batch : Transition F I arr2) (targets : arr2 F),
    (let hstate := Nd.mk [2; 1] [h0; h1] in
     let advantages := [[a00; a01]; [a10; a11]; [a20; a21]] in
     let '(init_hstate', _, advantages', _) :=
       PPO_RNN.shuffle [1; 0]
         (PPO_RNN.epoch_batch (Nd.reshape_1_n 2 hstate)
            (tree_map (@Arr.swapaxes01) traj_batch) advantages targets) in
     init_hstate' = Nd.mk [1; 2; 1] [h1; h0]
     /\ advantages' = [[a10; a00]; [a11; a01]]
     /\ Arr.split_minibatches 2 advantages' = [[[a10]; [a11]]; [[a00]; [a01]]]
     /\ Nd.split_minibatches 2 init_hstate'
        = [Nd.mk [1; 1; 1] [h1]; Nd.mk [1; 1; 1] [h0]])
    /\ (let hstate := Nd.mk [2; 2] [h00; h01; h10; h11] in
        let advantages := [[a00; a01]; [a10; a11]; [a20; a21]] in
        let '(init_hstate', _, advantages', _) :=
          PPO_RNN.shuffle [1; 0]
            (PPO_RNN.epoch_batch (Nd.reshape_1_n 2 hstate)
               (tree_map (@Arr.swapaxes01) traj_batch) advantages targets) in
        init_hstate' = Nd.mk [1; 2; 2] [h10; h11; h00; h01]
        /\ advantages' = [[a10; a00]; [a11; a01]]
        /\ Arr.split_minibatches 2 advantages'
           = [[[a10]; [a11]]; [[a00]; [a01]]]
        /\ Nd.split_minibatches 2 init_hstate'
           = [Nd.mk [1; 1; 2] [h10; h11]; Nd.mk [1; 1; 2] [h00; h01]]).
Proof.
  intros. cbv. repeat split.
Qed.

(** ** The training loop *)

Module LoopFacts.
Import EnvLoop ArrFacts.

Section Loop.
Context {F I TrainState EnvState GraphState HState Key Keys
           ObsDict ActDict RewDict DoneDict InfoDict Pi SpecKey Metric : Type}.
Context `{Collaborators F I TrainState EnvState GraphState HState Key Keys
            ObsDict ActDict RewDict DoneDict InfoDict Pi SpecKey Metric}.
Variable config : Config.

(** Whatever runner state a cycle starts from, the runner state it
    returns holds the graph state of the closure. *)
Lemma _run_update_graph (graph_state : GraphState)
  (update_runner_state : RunnerState * nat) :
  graph_of (fst (fst (_run_update config graph_state update_runner_state tt)))
  = graph_state.
Proof.
  destruct update_runner_state as [runner_state update_steps].
  unfold _run_update.
  destruct (Arr.scan_n _ _ _) as [[[[[[[ts es] o] d] h] g] key] trajectory].
  destruct (actor_update _ _) as [[[[[ts' es'] o'] d'] h'] key'].
  reflexivity.
Qed.

End Loop.
End LoopFacts.

(** C10: the graph state of the runner state does not advance from one
    update cycle to the next. The runner state carried into any cycle
    holds the graph state of the one initial reset, because [_run_update]
    returns the [graph_state] of the enclosing function whatever runner
    state it received; with collaborators whose graph state counts the
    environment steps, the rollout of the first cycle ends at 3 and the
    second cycle starts from 0 again. *)
Theorem graph_state_is_the_initial_one :
  (forall (F I TrainState EnvState GraphState HState Key Keys ObsDict
             ActDict RewDict DoneDict InfoDict Pi SpecKey Metric : Type)
          (C : EnvLoop.Collaborators F I TrainState EnvState GraphState
                 HState Key Keys ObsDict ActDict RewDict DoneDict InfoDict
                 Pi SpecKey Metric)
          (config : EnvLoop.Config),
      EnvLoop.graph_of (EnvLoop.initial_runner_state config)
      = snd (EnvLoop.vreset
               (EnvLoop.split_reshape (EnvLoop.PRNGKey (EnvLoop.SEED config))
                  (EnvLoop.NUM_ENVS config) (EnvLoop.NUM_DEVICES config)))
      /\ (forall cycles,
             EnvLoop.graph_of (fst (EnvLoop.carried_into config cycles))
             = EnvLoop.graph_of (EnvLoop.initial_runner_state config))
      /\ (forall graph_state update_runner_state,
             EnvLoop.graph_of
               (fst (fst (EnvLoop._run_update config graph_state
                            update_runner_state tt)))
             = graph_state))
  /\ (EnvLoop.rollout_graph counting_config
        (EnvLoop.initial_runner_state counting_config) = 3
      /\ EnvLoop.graph_of (fst (EnvLoop.carried_into counting_config 1)) = 0).
Proof.
  split.
  - intros. split; [|split].
    + unfold EnvLoop.initial_runner_state.
      destruct (EnvLoop.actor_initialise _) as [ts h].
      destruct (EnvLoop.vreset _) as [[o es] g]. reflexivity.
    + intros cycles. unfold EnvLoop.carried_into.
      apply (ArrFacts.scan_n_invariant
               (fun c => EnvLoop.graph_of (fst c)
                         = EnvLoop.graph_of (EnvLoop.initial_runner_state config))).
      * intros c _. apply LoopFacts._run_update_graph.
      * reflexivity.
    + intros. apply LoopFacts._run_update_graph.
  - split; reflexivity.
Qed.

(** ** The learning-rate schedule *)

Module ScheduleFacts.
Import PPO_RNN.
Local Open Scope Q_scope.

Section Schedule.
Variable LR : Q.
Variables NM UE NU : Z.
Hypothesis LR_nonneg : 0 <= LR.
Hypothesis steps_pos : (0 < NM * UE)%Z.
Hypothesis updates_pos : (0 < NU)%Z.

Lemma updates_nonzero : ~ inject_Z NU == 0.
Proof.
  unfold Qeq. simpl. lia.
Qed.

(** The fraction of the updates already done grows with the count. *)
Lemma done_fraction_mono (c1 c2 : Z) :
  (c1 <= c2)%Z ->
  inject_Z (c1 / (NM * UE)) / inject_Z NU <= inject_Z (c2 / (NM * UE)) / inject_Z NU.
Proof.
  intros Hc. unfold Qdiv. apply Qmult_le_compat_r.
  - rewrite <- Zle_Qle. apply Z.div_le_mono; assumption.
  - apply Qinv_le_0_compat. unfold Qle. simpl. lia.
Qed.

Lemma linear_schedule_mono (c1 c2 : Z) :
  (c1 <= c2)%Z ->
  linear_schedule LR NM UE NU c2 <= linear_schedule LR NM UE NU c1.
Proof.
  intros Hc. unfold linear_schedule. cbv zeta.
  rewrite !(Qmult_comm LR). apply Qmult_le_compat_r; [|exact LR_nonneg].
  apply Qplus_le_r. apply Qopp_le_compat. now apply done_fraction_mono.
Qed.

Lemma linear_schedule_end :
  linear_schedule LR NM UE NU (NM * UE * NU) == 0.
Proof.
  unfold linear_schedule. cbv zeta.
  assert (Hk : (NM * UE)%Z <> 0%Z).
  { intros E. pose proof steps_pos as Hp. rewrite E in Hp. discriminate Hp. }
  rewrite (Z.mul_comm (NM * UE) NU), (Z.div_mul NU (NM * UE) Hk).
  field. exact updates_nonzero.
Qed.

End Schedule.
End ScheduleFacts.

(** C7: the annealed learning rate. With [ANNEAL_LR] on, the learning
    rate at an optimiser-step count is
    [LR * (1 - (count // (NUM_MINIBATCHES * UPDATE_EPOCHS)) / NUM_UPDATES)];
    for a learning rate [LR] that is not negative and positive numbers
    of minibatches, epochs and updates it does not increase with the
    count, and it is zero at the count
    [NUM_MINIBATCHES * UPDATE_EPOCHS * NUM_UPDATES]. *)
Theorem linear_schedule_anneals_to_zero :
  forall (LR : Q) (NUM_MINIBATCHES UPDATE_EPOCHS NUM_UPDATES : Z),
    (0 <= LR)%Q -> (0 < NUM_MINIBATCHES * UPDATE_EPOCHS)%Z -> (0 < NUM_UPDATES)%Z ->
    let lr := PPO_RNN.learning_rate LR NUM_MINIBATCHES UPDATE_EPOCHS NUM_UPDATES
                                    true in
    (forall count,
        lr count
        = (LR * (1 - inject_Z (count / (NUM_MINIBATCHES * UPDATE_EPOCHS))
                     / inject_Z NUM_UPDATES))%Q)
    /\ (forall count1 count2, (count1 <= count2)%Z -> (lr count2 <= lr count1)%Q)
    /\ (lr (NUM_MINIBATCHES * UPDATE_EPOCHS * NUM_UPDATES)%Z == 0)%Q.
Proof.
  intros LR NM UE NU HLR Hk Hn lr. subst lr. unfold PPO_RNN.learning_rate.
  split; [|split].
  - reflexivity.
  - intros. now apply ScheduleFacts.linear_schedule_mono.
  - now apply ScheduleFacts.linear_schedule_end.
Qed.

(** The witness of C7: the rate 0.00025 over 4 minibatches, 4 epochs and
    10 updates is zero at the count 160. *)
Lemma linear_schedule_anneals_to_zero_witness :
  (PPO_RNN.learning_rate (25 # 100000) 4 4 10 true 160 == 0)%Q.
Proof.
  apply (@linear_schedule_anneals_to_zero (25 # 100000)%Q 4%Z 4%Z 10%Z);
    [discriminate | reflexivity | reflexivity].
Defined.

(** ** The network of agents/PPO/network.py *)

Module NetworkFacts.
Import Network.

(** The body of [__call__] hands back the hidden state it was given and
    reads neither it nor the done flags for the logits and the value. *)
Lemma call_body_returns_hidden {F Params Cfg : Type} `{Numeric F}
  `{Floating F} `{Flax F Params} (self : ActorCriticRNN Cfg) (params : Params)
  (hidden hidden' : Nd.ndarray F) (obs : arr3 F) (dones dones' : arr2 bool) :
  fst (fst (__call__ self params hidden (obs, dones))) = hidden
  /\ snd (fst (__call__ self params hidden (obs, dones)))
     = snd (fst (__call__ self params hidden' (obs, dones')))
  /\ snd (__call__ self params hidden (obs, dones))
     = snd (__call__ self params hidden' (obs, dones')).
Proof.
  unfold __call__. simpl. repeat split.
Qed.

End NetworkFacts.

(** C5: no network comes out of agents/PPO/network.py. The class
    statement of [ActorCriticRNN] declares [config], a field without
    default, after [activation], a field with one, and the data class
    that [nn.Module] makes of the class refuses this order with a
    [TypeError].  So whatever the arguments of the constructor, the
    parameters, the hidden state and the input are, a program that loads
    the module and applies the network ends in that exception: no hidden
    state is reset, put through a recurrent cell or returned. *)
Theorem network_class_statement_raises :
  forall (F Params Cfg : Type) (N : Numeric F) (Fl : Floating F)
         (L : Network.Flax F Params) (action_dim : nat)
         (activation : option string) (config : Cfg) (params : Params)
         (hidden : Nd.ndarray F) (x : arr3 F * arr2 bool),
    Network.class_statement
    = Python.Uncaught
        (Python.TypeError
           "non-default argument 'config' follows default argument")
    /\ Network.build_and_call action_dim activation config params hidden x
       = Python.Uncaught
           (Python.TypeError
              "non-default argument 'config' follows default argument")
    /\ Python.exit_status
         (Network.build_and_call action_dim activation config params hidden x)
       = 1%Z.
Proof.
  intros. unfold Network.build_and_call.
  assert (E : Network.class_statement
              = Python.Uncaught
                  (Python.TypeError
                     "non-default argument 'config' follows default argument"))
    by reflexivity.
  rewrite E. repeat split.
Qed.

(** ** The reward dispatch *)

Module RewardFacts.
Import AYS.

Section Loop.
Context {St : Type}.
Variable body : nat -> world St -> outcome (world St).
Variable Q : outcome (world St) -> Prop.

(** The loop over the agents stops at the first agent whose body does
    not return, with the outcome of that body. *)
Lemma for_agents_stops (pre post : list nat) (agent : nat) (w : world St) :
  (forall a w', In a pre ->
                match body a w' with Returned _ => True | o => Q o end) ->
  (forall w', Q (body agent w') /\ fatal (body agent w')) ->
  Q (for_agents body (pre ++ agent :: post) w).
Proof.
  intros Hpre Hagent. revert w.
  induction pre as [|a pre IH]; intros w; simpl.
  - destruct (Hagent w) as [HQ Hf].
    destruct (body agent w); [destruct Hf | exact HQ | exact HQ].
  - pose proof (Hpre a w (or_introl eq_refl)) as Ha.
    destruct (body a w); [|exact Ha|exact Ha].
    apply IH. intros a' w' Hin. apply Hpre. now right.
Qed.

End Loop.

Lemma seq_split (n agent : nat) :
  agent < n -> seq 0 n = seq 0 agent ++ agent :: seq (S agent) (n - S agent).
Proof.
  intros Hlt. replace n with (agent + S (n - S agent)) at 1 by lia.
  rewrite seq_app. reflexivity.
Qed.

Lemma earlier_entry {A : Type} (l : list A) (a agent : nat) (x : A) :
  nth_error l agent = Some x -> In a (seq 0 agent) ->
  exists y, nth_error l a = Some y.
Proof.
  intros Hx Hin. apply in_seq in Hin.
  assert (Hlen : agent < length l) by (apply nth_error_Some; congruence).
  destruct (nth_error l a) as [y|] eqn:E; [now exists y|].
  apply nth_error_None in E. lia.
Qed.

Section Multi.
Context {St : Type} `{MultiAgent.Rewards St}.

Lemma multi_dispatch_entry (reward_type : list (option string)) (a : nat)
  (rt : option string) (w : world St) :
  nth_error reward_type a = Some rt ->
  match MultiAgent.dispatch reward_type a w with
  | Returned _ => True
  | o => exits_1 o
  end.
Proof.
  intros E. unfold MultiAgent.dispatch. rewrite E.
  repeat (match goal with
          | |- context [if ?b then _ else _] => destruct b; [exact I|]
          end).
  destruct rt; eexists; reflexivity.
Qed.

Lemma multi_dispatch_unknown (reward_type : list (option string)) (agent : nat)
  (s : string) (w : world St) :
  nth_error reward_type agent = Some (Some s) ->
  MultiAgent.recognised s = false ->
  MultiAgent.dispatch reward_type agent w
  = Exited 1 (MultiAgent.print_debug_info (print (unavailable_msg s) w)).
Proof.
  intros E Hs. unfold MultiAgent.dispatch. rewrite E.
  unfold MultiAgent.recognised in Hs. simpl in Hs.
  repeat (apply orb_false_iff in Hs; destruct Hs as [?E Hs]).
  unfold is_. now rewrite E0, E1, E2, E3, E4, E5, E6, E7, E8, E9.
Qed.

End Multi.

End RewardFacts.

(** C8: an unknown reward selector is fatal. When the [reward_type] of
    some agent is a string that the environment does not recognise, the
    reward dispatch of [AYS_Environment_MultiAgent] does not return: it
    ends in [sys.exit(1)].  The file [AYS_JAX.py] is not compiled: the
    header [def step(self):] at line 244 has no block, so the import
    raises [IndentationError], the process ends with status 1, and the
    reward dispatch of that file returns no reward either, whatever the
    selectors are. *)
Theorem unknown_reward_type_is_fatal :
  forall (St : Type) (RM : AYS.MultiAgent.Rewards St)
         (num_agents : nat) (reward_type : list (option string))
         (agent : nat) (s : string) (w : AYS.world St),
    agent < num_agents ->
    nth_error reward_type agent = Some (Some s) ->
    (AYS.MultiAgent.recognised s = false ->
     exists w',
       AYS.MultiAgent.get_reward_function num_agents reward_type w
       = AYS.Exited 1 w')
    /\ AYS.JAX.import_module
       = Python.Uncaught (Python.IndentationError 244)
    /\ Python.exit_status AYS.JAX.import_module = 1%Z.
Proof.
  intros St RM num_agents reward_type agent s w Hlt Hs. split.
  - intros Hun. unfold AYS.MultiAgent.get_reward_function.
    rewrite (RewardFacts.seq_split Hlt).
    apply (RewardFacts.for_agents_stops
             (AYS.MultiAgent.dispatch reward_type) AYS.exits_1).
    + intros a w' Hin.
      destruct (@RewardFacts.earlier_entry _ reward_type a agent _ Hs Hin)
        as [rt Hrt].
      now apply RewardFacts.multi_dispatch_entry with (rt := rt).
    + intros w'. rewrite (@RewardFacts.multi_dispatch_unknown _ _ reward_type agent s w'
                 Hs Hun).
      split; [eexists; reflexivity | exact I].
  - split; reflexivity.
Qed.

(** The witness of C8: the second of two agents asks for a reward
    function that does not exist. *)
Lemma unknown_reward_type_is_fatal_witness :
  exists w',
    AYS.MultiAgent.get_reward_function 2 [Some "PB"; Some "bogus"]%string
      (AYS.mkWorld 0 [])
    = AYS.Exited 1 w'.
Proof.
  apply (proj1 (@unknown_reward_type_is_fatal nat Rewards_multi 2
                  [Some "PB"; Some "bogus"]%string 1 "bogus"%string
                  (AYS.mkWorld 0 []) (le_n 2) eq_refl)).
  reflexivity.
Defined.

(* ===================================================================== *)
(** * Part III: further properties of the code                            *)
(* ===================================================================== *)


(** ** More on arrays *)

Module AxisFacts.
Import ArrFacts.

Lemma map2_nth {A B C : Type} (f : A -> B -> C) (xs : list A) (ys : list B)
  (n : nat) (dx : A) (dy : B) (dz : C) :
  n < length xs -> n < length ys ->
  nth n (Arr.map2 f xs ys) dz = f (nth n xs dx) (nth n ys dy).
Proof.
  revert ys n.
  induction xs as [|x xs IH]; intros [|y ys] [|n]; simpl; intros Hx Hy;
    try lia; [reflexivity|].
  apply IH; lia.
Qed.

Lemma map2_nth_error_inv {A B C : Type} (f : A -> B -> C) (xs : list A)
  (ys : list B) (n : nat) (z : C) :
  nth_error (Arr.map2 f xs ys) n = Some z ->
  exists x y, nth_error xs n = Some x /\ nth_error ys n = Some y /\ z = f x y.
Proof.
  revert ys n.
  induction xs as [|x xs IH]; intros [|y ys] [|n]; simpl; try discriminate.
  - intros [= <-]. now exists x, y.
  - apply IH.
Qed.

(** The rows of a swapped array are the columns of the array. *)
Lemma swapaxes01_columns {A : Type} (d : A) (rows cols : nat)
  (x : list (list A)) :
  Arr.rect (S rows) cols x ->
  length (Arr.swapaxes01 x) = cols
  /\ forall j, j < cols ->
       nth j (Arr.swapaxes01 x) [] = map (fun r => nth j r d) x.
Proof.
  revert rows. induction x as [|r rs IH]; intros rows [Hlen Hall].
  - discriminate Hlen.
  - inversion Hall as [|? ? Hr Hrs]; subst. simpl.
    destruct rs as [|r' rs'].
    + split; [now rewrite length_map|].
      intros j Hj. simpl.
      rewrite (nth_indep _ [] [d]) by now rewrite length_map.
      now rewrite (map_nth (fun a => [a])).
    + destruct (IH (length rs') (conj eq_refl Hrs)) as [IHl IHc].
      split.
      * rewrite map2_length, IHl. lia.
      * intros j Hj.
        rewrite (map2_nth cons r (Arr.swapaxes01 (r' :: rs')) d [] []) by lia.
        now rewrite IHc.
Qed.

(** Swapping the two axes twice gives the array back. *)
Lemma swapaxes01_involutive {A : Type} (rows cols : nat) (x : list (list A)) :
  Arr.rect (S rows) (S cols) x -> Arr.swapaxes01 (Arr.swapaxes01 x) = x.
Proof.
  intros Hx.
  destruct x as [|r0 rs]; [destruct Hx; discriminate|].
  assert (Hr0 : length r0 = S cols).
  { destruct Hx as [_ Hall]. now inversion Hall. }
  destruct r0 as [|d r0']; [discriminate Hr0|]. clear Hr0.
  set (r0 := d :: r0') in *.
  destruct (swapaxes01_columns d Hx) as [Hl Hc].
  assert (Hrect : Arr.rect (S cols) (S rows) (Arr.swapaxes01 (r0 :: rs))).
  { split; [exact Hl|]. apply Forall_forall. intros c Hin.
    apply (In_nth _ _ []) in Hin. destruct Hin as (j & Hj & <-).
    rewrite Hc by lia. rewrite length_map. apply Hx. }
  destruct (swapaxes01_columns d Hrect) as [Hl2 Hc2].
  destruct Hx as [Hlen Hall]. rewrite Forall_forall in Hall.
  apply (nth_ext _ _ [] []); [lia|].
  intros i Hi. rewrite Hl2 in Hi. rewrite Hc2 by lia.
  assert (Hrow : length (nth i (r0 :: rs) []) = S cols)
    by (apply Hall, nth_In; lia).
  apply (nth_ext _ _ d d).
  - now rewrite length_map, Hl.
  - intros j Hj. rewrite length_map, Hl in Hj.
    rewrite (nth_indep _ d (nth i [] d)) by (rewrite length_map; lia).
    rewrite (map_nth (fun r => nth i r d)).
    rewrite Hc by lia.
    rewrite (nth_indep _ d (nth j [] d)) by (rewrite length_map; lia).
    now rewrite (map_nth (fun r => nth j r d)).
Qed.

End AxisFacts.

(** ** More on the advantage estimator *)

Module GaeMore.
Import PPO_RNN ArrFacts AxisFacts GaeFacts.

Section Generic.
Context {F I : Type} `{Numeric F}.
Variable config : Config F.

Lemma stack_unstack_slices (ts : list (Transition F I arr1)) :
  unstack (stack ts) = ts.
Proof.
  unfold unstack, stack. simpl.
  induction ts as [|tr ts IH]; simpl; [reflexivity|].
  rewrite IH. now destruct tr.
Qed.

Lemma scan_reverse_suffix (init : arr1 F * arr1 F)
  (pre suf : list (Transition F I arr1)) :
  skipn (length pre)
        (snd (Arr.scan_reverse (_get_advantages config) init (pre ++ suf)))
  = snd (Arr.scan_reverse (_get_advantages config) init suf).
Proof.
  induction pre as [|tr pre IH]; simpl; [reflexivity|].
  destruct (Arr.scan_reverse _ init (pre ++ suf)) as [c ys].
  destruct (_get_advantages config c tr) as [c' y]. exact IH.
Qed.

Lemma skipn_map2 {A B C : Type} (f : A -> B -> C) (n : nat) (xs : list A)
  (ys : list B) :
  skipn n (Arr.map2 f xs ys) = Arr.map2 f (skipn n xs) (skipn n ys).
Proof.
  revert xs ys. induction n as [|n IH]; intros [|x xs] [|y ys]; simpl;
    try reflexivity.
  - now destruct (skipn n xs).
  - apply IH.
Qed.

Lemma recurrence_gae_length (E : nat) (r nv v g : arr1 F) (d : arr1 bool) :
  length r = E -> length nv = E -> length v = E -> length g = E ->
  length d = E ->
  length (recurrence_gae config (recurrence_delta config r nv d v) d g) = E.
Proof.
  intros. unfold recurrence_gae, recurrence_delta.
  rewrite !map2_length. lia.
Qed.

Lemma recurrence_gae_nth (E e : nat) (d0 : F) (r nv v g : arr1 F)
  (d : arr1 bool) :
  length r = E -> length nv = E -> length v = E -> length g = E ->
  length d = E -> e < E ->
  nth e (recurrence_gae config (recurrence_delta config r nv d v) d g) d0
  = gae_cell config (nth e r d0) (nth e nv d0) (nth e d false) (nth e v d0)
             (nth e g d0).
Proof.
  intros. unfold recurrence_gae, recurrence_delta, gae_cell.
  rewrite (map2_nth _ _ _ d0 d0) by (rewrite ?map2_length; lia).
  rewrite (map2_nth _ _ _ d0 d0) by (rewrite ?map2_length; lia).
  rewrite (map2_nth _ _ _ d0 d0) by (rewrite ?map2_length; lia).
  rewrite (map2_nth _ _ _ d0 false) by (rewrite ?map2_length; lia).
  rewrite (map2_nth _ _ _ false d0) by (rewrite ?map2_length; lia).
  reflexivity.
Qed.

(** The advantages of a rollout of width [E] have width [E]. *)
Lemma advantages_width (E : nat) (z last_val : arr1 F)
  (rows : list (Transition F I arr1)) :
  rows_of_width E rows -> length z = E -> length last_val = E ->
  Forall (fun a => length a = E)
         (snd (Arr.scan_reverse (_get_advantages config) (z, last_val) rows)).
Proof.
  intros Hw Hz Hl. induction Hw as [|tr rest (Hg & Hv & Hr) Hrest IH]; simpl.
  - constructor.
  - destruct (Arr.scan_reverse (_get_advantages config) (z, last_val) rest)
      as [[gae nv] ys] eqn:Es.
    apply scan_reverse_carry in Es.
    rewrite _get_advantages_recurrence. simpl in *.
    constructor; [|exact IH].
    apply recurrence_gae_length; try assumption.
    + destruct rest as [|tr1 rest'].
      * destruct Es as [[= -> ->] _]. exact Hl.
      * destruct Es as (g & ys' & -> & [= -> ->]).
        inversion Hrest as [|? ? (_ & Hv1 & _) _]; subst. exact Hv1.
    + destruct rest as [|tr1 rest'].
      * destruct Es as [[= -> ->] _]. exact Hz.
      * destruct Es as (g & ys' & -> & [= -> ->]).
        now inversion IH.
Qed.

(** The advantage of one environment at one step, from the cells of that
    environment alone. *)
Lemma advantage_cell :
  forall (traj_batch : Transition F I arr2) (last_val : arr1 F)
         (E t e : nat) (tr : Transition F I arr1) (d0 : F),
    rows_of_width E (unstack traj_batch) ->
    length last_val = E ->
    nth_error (unstack traj_batch) t = Some tr ->
    e < E ->
    let advantages := fst (_calculate_gae config traj_batch last_val) in
    let next_value :=
      match nth_error (unstack traj_batch) (S t) with
      | Some tr' => value tr'
      | None => last_val
      end in
    let gae_prev :=
      match nth_error advantages (S t) with
      | Some g => g
      | None => zeros_like last_val
      end in
    exists a,
      nth_error advantages t = Some a
      /\ length a = E
      /\ nth e a d0
         = gae_cell config (nth e (reward tr) d0) (nth e next_value d0)
             (nth e (global_done tr) false) (nth e (value tr) d0)
             (nth e gae_prev d0).
Proof.
  intros traj_batch last_val E t e tr d0 Hw Hl Ht He
         advantages next_value gae_prev.
  assert (Hadv : advantages
                 = snd (Arr.scan_reverse (_get_advantages config)
                          (zeros_like last_val, last_val)
                          (unstack traj_batch))).
  { subst advantages. unfold _calculate_gae.
    destruct (Arr.scan_reverse _ _ _) as [c ys]. reflexivity. }
  assert (Hz : length (zeros_like last_val) = E)
    by (unfold zeros_like; now rewrite length_map).
  pose proof (@advantages_width E
                (zeros_like last_val) last_val (unstack traj_batch)
                Hw Hz Hl) as Hwidth.
  rewrite <- Hadv in Hwidth.
  pose proof (scan_reverse_recurrence config
                (zeros_like last_val) last_val (unstack traj_batch) t Ht)
    as Hrec.
  rewrite <- Hadv in Hrec. fold next_value gae_prev in Hrec.
  unfold rows_of_width in Hw. rewrite Forall_forall in Hw, Hwidth.
  destruct (Hw tr (nth_error_In _ _ Ht)) as (Hg & Hv & Hr).
  assert (Hnv : length next_value = E).
  { subst next_value. destruct (nth_error (unstack traj_batch) (S t)) eqn:E1;
      [|exact Hl]. now destruct (Hw _ (nth_error_In _ _ E1)) as (_ & ? & _). }
  assert (Hgp : length gae_prev = E).
  { subst gae_prev. destruct (nth_error advantages (S t)) eqn:E1; [|exact Hz].
    exact (Hwidth _ (nth_error_In _ _ E1)). }
  eexists. split; [exact Hrec|]. split.
  - now apply recurrence_gae_length.
  - now apply recurrence_gae_nth with (E := E).
Qed.

End Generic.
End GaeMore.

(** X1: the advantages of every environment obey the recurrence on the
    cells of that environment alone. In a rollout whose slices all hold
    [E] environments, the advantage of environment [e] at step [t] is
    computed from the reward, value and whole-episode flag of that
    environment at [t], and from its next value and next advantage, or
    its bootstrap value and zero after the last step: no cell of another
    environment enters. *)
Theorem gae_per_environment :
  forall (F I : Type) (N : Numeric F) (config : PPO_RNN.Config F)
         (traj_batch : Transition F I arr2) (last_val : arr1 F)
         (E t e : nat) (tr : Transition F I arr1) (d0 : F),
    PPO_RNN.rows_of_width E (unstack traj_batch) ->
    length last_val = E ->
    nth_error (unstack traj_batch) t = Some tr ->
    e < E ->
    let advantages := fst (PPO_RNN._calculate_gae config traj_batch last_val) in
    let next_value :=
      match nth_error (unstack traj_batch) (S t) with
      | Some tr' => value tr'
      | None => last_val
      end in
    let gae_prev :=
      match nth_error advantages (S t) with
      | Some g => g
      | None => repeat (flit 0) (length last_val)
      end in
    exists a,
      nth_error advantages t = Some a
      /\ length a = E
      /\ nth e a d0
         = PPO_RNN.gae_cell config (nth e (reward tr) d0) (nth e next_value d0)
             (nth e (global_done tr) false) (nth e (value tr) d0)
             (nth e gae_prev d0).
Proof.
  intros F I N config traj_batch last_val E t e tr d0 Hw Hl Ht He.
  cbv zeta. rewrite <- (@GaeFacts.zeros_like_repeat F N last_val).
  exact (@GaeMore.advantage_cell F I N config traj_batch last_val E t e tr d0
           Hw Hl Ht He).
Qed.

Lemma gae_per_environment_witness :
  exists a,
    nth_error (fst (PPO_RNN._calculate_gae open_config
                      (open_rollout 1 2 3 4) [5%Q; 7%Q])) 0 = Some a
    /\ length a = 2
    /\ nth 1 a 0%Q
       = PPO_RNN.gae_cell open_config 2%Q 4%Q false 2%Q
           (PPO_RNN.gae_cell open_config 2%Q 7%Q false 4%Q 0%Q).
Proof.
  assert (Hw : PPO_RNN.rows_of_width 2 (unstack (open_rollout 1 2 3 4)))
    by (repeat constructor).
  exact (@gae_per_environment Q unit _ open_config (open_rollout 1 2 3 4)
           [5%Q; 7%Q] 2 0 1
           (mkTransition [false; false] [false; false] [0%Z; 1%Z] [1%Q; 2%Q]
                         [1%Q; 2%Q] [0%Q; 0%Q] [[]; []] [tt; tt])
           0%Q Hw eq_refl eq_refl (le_n 2)).
Defined.

(** X2: the advantages and targets of a step do not depend on the steps
    before it. For a rollout made of the slices [earlier ++ later], the
    advantages and targets from the first step of [later] on are those
    of the rollout [later] alone. *)
Theorem gae_ignores_earlier_steps :
  forall (F I : Type) (N : Numeric F) (config : PPO_RNN.Config F)
         (earlier later : list (Transition F I arr1)) (last_val : arr1 F),
    let whole := PPO_RNN._calculate_gae config (stack (earlier ++ later)) last_val in
    let tail := PPO_RNN._calculate_gae config (stack later) last_val in
    skipn (length earlier) (fst whole) = fst tail
    /\ skipn (length earlier) (snd whole) = snd tail.
Proof.
  intros F I N config earlier later last_val whole tail.
  subst whole tail. unfold PPO_RNN._calculate_gae.
  rewrite !GaeMore.stack_unstack_slices.
  pose proof (GaeMore.scan_reverse_suffix config
                (PPO_RNN.zeros_like last_val, last_val) earlier later) as Hs.
  destruct (Arr.scan_reverse _ _ (earlier ++ later)) as [c ys].
  destruct (Arr.scan_reverse _ _ later) as [c' ys']. simpl in *.
  split; [exact Hs|].
  subst ys'. unfold PPO_RNN.amap2. rewrite GaeMore.skipn_map2.
  rewrite map_app, skipn_app, length_map, Nat.sub_diag.
  rewrite (@skipn_all2 _ (length earlier) (map (@value _ _ _) earlier))
    by (rewrite length_map; lia).
  reflexivity.
Qed.

(** X3: without discounting the advantage is the reward minus the value.
    Over the rationals, with [GAMMA = 0], the advantage of every
    environment at every step of a rollout of width [E] equals
    [reward - value]. *)
Theorem gae_gamma_zero :
  forall (config : PPO_RNN.Config Q) (traj_batch : Transition Q unit arr2)
         (last_val : arr1 Q) (E t e : nat) (tr : Transition Q unit arr1),
    (PPO_RNN.GAMMA config == 0)%Q ->
    PPO_RNN.rows_of_width E (unstack traj_batch) ->
    length last_val = E ->
    nth_error (unstack traj_batch) t = Some tr ->
    e < E ->
    exists a,
      nth_error (fst (PPO_RNN._calculate_gae config traj_batch last_val)) t
      = Some a
      /\ (nth e a 0 == nth e (reward tr) 0 - nth e (value tr) 0)%Q.
Proof.
  intros config traj_batch last_val E t e tr Hgamma Hw Hl Ht He.
  destruct (@GaeMore.advantage_cell Q unit _ config traj_batch last_val E t e
              tr 0%Q Hw Hl Ht He) as (a & Ha & _ & Hcell).
  exists a. split; [exact Ha|]. rewrite Hcell.
  unfold PPO_RNN.gae_cell, PPO_RNN.of_int.
  cbn [flit fadd fsub fmul Numeric_Q]. rewrite Hgamma. ring.
Qed.

Lemma gae_gamma_zero_witness :
  exists a,
    nth_error (fst (PPO_RNN._calculate_gae gamma_zero_config
                      (scenario 0 0 0 0) [5%Q])) 0 = Some a
    /\ (nth 0 a 0 == 1 - 0)%Q.
Proof.
  apply (@gae_gamma_zero gamma_zero_config (scenario 0 0 0 0) [5%Q] 1 0 0
           scenario_first).
  - reflexivity.
  - repeat constructor.
  - reflexivity.
  - reflexivity.
  - lia.
Defined.

(** X4: without trace the advantage is the one-step residual. Over the
    rationals, with [GAE_LAMBDA = 0], the advantage of every environment
    at every step equals
    [reward + GAMMA * next_value * (1 - done) - value], where [done] is
    the whole-episode flag and [next_value] the value of the following
    step, or the bootstrap value after the last step. *)
Theorem gae_lambda_zero :
  forall (config : PPO_RNN.Config Q) (traj_batch : Transition Q unit arr2)
         (last_val : arr1 Q) (E t e : nat) (tr : Transition Q unit arr1),
    (PPO_RNN.GAE_LAMBDA config == 0)%Q ->
    PPO_RNN.rows_of_width E (unstack traj_batch) ->
    length last_val = E ->
    nth_error (unstack traj_batch) t = Some tr ->
    e < E ->
    let next_value :=
      match nth_error (unstack traj_batch) (S t) with
      | Some tr' => value tr'
      | None => last_val
      end in
    exists a,
      nth_error (fst (PPO_RNN._calculate_gae config traj_batch last_val)) t
      = Some a
      /\ (nth e a 0
          == nth e (reward tr) 0
             + PPO_RNN.GAMMA config * nth e next_value 0
               * (if nth e (global_done tr) false then 0 else 1)
             - nth e (value tr) 0)%Q.
Proof.
  intros config traj_batch last_val E t e tr Hlambda Hw Hl Ht He next_value.
  destruct (@GaeMore.advantage_cell Q unit _ config traj_batch last_val E t e
              tr 0%Q Hw Hl Ht He) as (a & Ha & _ & Hcell).
  exists a. split; [exact Ha|]. rewrite Hcell. fold next_value.
  unfold PPO_RNN.gae_cell, PPO_RNN.of_int.
  cbn [flit fadd fsub fmul Numeric_Q]. rewrite Hlambda.
  destruct (nth e (global_done tr) false).
  - change (inject_Z (PPO_RNN.one_minus true)) with 0%Q. ring.
  - change (inject_Z (PPO_RNN.one_minus false)) with 1%Q. ring.
Qed.

Lemma gae_lambda_zero_witness :
  exists a,
    nth_error (fst (PPO_RNN._calculate_gae lambda_zero_config
                      (scenario 0 0 0 0) [5%Q])) 0 = Some a.
Proof.
  destruct (@gae_lambda_zero lambda_zero_config (scenario 0 0 0 0) [5%Q] 1 0 0
              scenario_first) as (a & Ha & _).
  - reflexivity.
  - repeat constructor.
  - reflexivity.
  - reflexivity.
  - lia.
  - exists a. exact Ha.
Defined.

(** X5: an episode boundary cuts the bootstrap. Over the rationals, at a
    step where the whole-episode flag of an environment is true, the
    advantage of that environment is [reward - value], whatever the later
    steps and the bootstrap value are. *)
Theorem gae_stops_at_episode_end :
  forall (config : PPO_RNN.Config Q) (traj_batch : Transition Q unit arr2)
         (last_val : arr1 Q) (E t e : nat) (tr : Transition Q unit arr1),
    PPO_RNN.rows_of_width E (unstack traj_batch) ->
    length last_val = E ->
    nth_error (unstack traj_batch) t = Some tr ->
    e < E ->
    nth e (global_done tr) false = true ->
    exists a,
      nth_error (fst (PPO_RNN._calculate_gae config traj_batch last_val)) t
      = Some a
      /\ (nth e a 0 == nth e (reward tr) 0 - nth e (value tr) 0)%Q.
Proof.
  intros config traj_batch last_val E t e tr Hw Hl Ht He Hdone.
  destruct (@GaeMore.advantage_cell Q unit _ config traj_batch last_val E t e
              tr 0%Q Hw Hl Ht He) as (a & Ha & _ & Hcell).
  exists a. split; [exact Ha|]. rewrite Hcell, Hdone.
  unfold PPO_RNN.gae_cell, PPO_RNN.of_int.
  cbn [flit fadd fsub fmul Numeric_Q].
  change (inject_Z (PPO_RNN.one_minus true)) with 0%Q. ring.
Qed.

Lemma gae_stops_at_episode_end_witness :
  exists a,
    nth_error (fst (PPO_RNN._calculate_gae scenario_config
                      (scenario 0 0 0 0) [5%Q])) 3 = Some a
    /\ (nth 0 a 0 == 1 - 0)%Q.
Proof.
  apply (@gae_stops_at_episode_end scenario_config (scenario 0 0 0 0) [5%Q]
           1 3 0 scenario_last).
  - repeat constructor.
  - reflexivity.
  - reflexivity.
  - lia.
  - reflexivity.
Defined.

(** ** More on the loss *)

Module LossMore.
Import PPO_RNN ArrFacts AxisFacts.

Lemma cell_amap2_inv {A B C : Type} (f : A -> B -> C) (x : arr2 A) (y : arr2 B)
  (i j : nat) (z : C) :
  Arr.cell (amap2 f x y) i j = Some z ->
  exists a b, Arr.cell x i j = Some a /\ Arr.cell y i j = Some b /\ z = f a b.
Proof.
  unfold Arr.cell, amap2.
  destruct (nth_error (Arr.map2 _ x y) i) as [r|] eqn:Er; [|discriminate].
  apply map2_nth_error_inv in Er. destruct Er as (rx & ry & -> & -> & ->).
  intros Hz. apply map2_nth_error_inv in Hz.
  destruct Hz as (a & b & Ha & Hb & ->). now exists a, b.
Qed.

Lemma cell_amap_inv {A B : Type} (f : A -> B) (x : arr2 A) (i j : nat) (z : B) :
  Arr.cell (amap f x) i j = Some z ->
  exists a, Arr.cell x i j = Some a /\ z = f a.
Proof.
  unfold Arr.cell, amap. rewrite nth_error_map.
  destruct (nth_error x i) as [r|]; [|discriminate]. simpl.
  rewrite nth_error_map. destruct (nth_error r j) as [a|]; [|discriminate].
  intros [= <-]. now exists a.
Qed.

Local Open Scope Q_scope.

Lemma fmax_Q (x y : Q) : x <= fmax x y /\ y <= fmax x y
                         /\ (fmax x y = x \/ fmax x y = y).
Proof.
  cbn [fmax Numeric_Q]. destruct (Qle_bool x y) eqn:E.
  - apply Qle_bool_iff in E. repeat split; [exact E|apply Qle_refl|now right].
  - assert (~ x <= y) by (intros Hc; apply Qle_bool_iff in Hc; congruence).
    apply Qnot_le_lt in H. repeat split;
      [apply Qle_refl|now apply Qlt_le_weak|now left].
Qed.




End LossMore.



(** X7: the value loss of a cell is never below the squared error of the
    new value. Over the rationals, every cell of [value_losses_max] is at
    least [(value - target)^2], hence not negative. *)
Theorem value_loss_at_least_squared_error :
  forall (config : PPO_RNN.Config Q) (value value_old targets : arr2 Q)
         (i j : nat) (l : Q),
    Arr.cell (PPO_RNN.value_losses_max config value value_old targets) i j
    = Some l ->
    exists v t,
      Arr.cell value i j = Some v /\ Arr.cell targets i j = Some t
      /\ ((v - t) * (v - t) <= l)%Q /\ (0 <= l)%Q.
Proof.
  intros config value value_old targets i j l Hl.
  unfold PPO_RNN.value_losses_max in Hl.
  apply LossMore.cell_amap2_inv in Hl. destruct Hl as (l1 & l2 & H1 & _ & ->).
  apply LossMore.cell_amap_inv in H1. destruct H1 as (d & Hd & ->).
  apply LossMore.cell_amap2_inv in Hd. destruct Hd as (v & t & Hv & Ht & ->).
  exists v, t. split; [exact Hv|]. split; [exact Ht|].
  destruct (LossMore.fmax_Q (PPO_RNN.square (fsub v t)) l2) as (M1 & _ & _).
  unfold PPO_RNN.square in *. cbn [fsub fmul Numeric_Q] in *.
  split; [exact M1|].
  apply Qle_trans with ((v - t) * (v - t))%Q; [|exact M1].
  set (d := (v - t)%Q). nra.
Qed.

Lemma value_loss_at_least_squared_error_witness :
  exists v t : Q,
    Arr.cell [[1%Q]] 0 0 = Some v /\ Arr.cell [[3%Q]] 0 0 = Some t.
Proof.
  destruct (@value_loss_at_least_squared_error scenario_config [[1%Q]] [[0%Q]]
              [[3%Q]] 0 0 _ eq_refl) as (v & t & Hv & Ht & _).
  exists v, t. split; assumption.
Defined.

Module MaskMore.
Import PPO_RNN.
Local Open Scope Q_scope.

Lemma fold_Qplus_shift (l : list Q) (a : Q) :
  fold_left Qplus l a == a + fold_left Qplus l 0.
Proof.
  revert a. induction l as [|x l IH]; intros a; simpl; [ring|].
  rewrite (IH (a + x)), (IH (0 + x)). ring.
Qed.

Lemma fold_Qplus_acc (l : list Q) (a b : Q) :
  a == b -> fold_left Qplus l a == fold_left Qplus l b.
Proof.
  intros E. rewrite (fold_Qplus_shift l a), (fold_Qplus_shift l b), E.
  reflexivity.
Qed.

Lemma masked_row_sum (ds : list bool) (xs : list Q) (a : Q) :
  fold_left Qplus (Arr.map2 where_ (map one_minus ds) xs) a
  == fold_left Qplus
       (map snd (filter (fun p => negb (fst p)) (combine ds xs))) a.
Proof.
  revert xs a. induction ds as [|d ds IH]; intros [|x xs] a; simpl;
    try reflexivity.
  destruct d; simpl.
  - rewrite IH. apply fold_Qplus_acc.
    change (where_ (one_minus true) x) with 0. ring.
  - rewrite IH. reflexivity.
Qed.

Lemma masked_sum (done : arr2 bool) (x : arr2 Q) (a : Q) :
  fold_left Qplus (concat (amap2 where_ (amap one_minus done) x)) a
  == fold_left Qplus (kept done x) a.
Proof.
  unfold amap2, amap, kept.
  revert x a. induction done as [|ds done IH]; intros [|xs x] a; simpl;
    try reflexivity.
  rewrite !fold_left_app. rewrite IH.
  apply fold_Qplus_acc. apply masked_row_sum.
Qed.

Lemma indicator_row_sum (ds : list bool) (a : Q) :
  fold_left Qplus
    (map (fun m => if selected m then flit 1 else flit 0) (map one_minus ds)) a
  == a + inject_Z (Z.of_nat (length (filter negb ds))).
Proof.
  revert a. induction ds as [|d ds IH]; intros a; simpl.
  - unfold inject_Z. ring.
  - rewrite IH. destruct d; simpl.
    + change (if selected (one_minus true) then flit 1 else flit 0) with 0. ring.
    + change (if selected (one_minus false) then flit 1 else flit 0) with 1.
      rewrite Zpos_P_of_succ_nat, <- Z.add_1_l, inject_Z_plus. ring.
Qed.

Lemma indicator_sum (done : arr2 bool) (a : Q) :
  fold_left Qplus
    (concat (amap (fun m => if selected m then flit 1 else flit 0)
                  (amap one_minus done))) a
  == a + inject_Z (Z.of_nat (length (filter negb (concat done)))).
Proof.
  unfold amap. revert a. induction done as [|ds done IH]; intros a; simpl.
  - unfold inject_Z. ring.
  - rewrite fold_left_app, IH, indicator_row_sum.
    rewrite filter_app, length_app, Nat2Z.inj_add, inject_Z_plus. ring.
Qed.

Lemma kept_all_done {A : Type} (done : arr2 bool) (x : arr2 A) :
  (forall d, In d (concat done) -> d = true) ->
  kept done x = [] /\ filter negb (concat done) = [].
Proof.
  unfold kept. revert x.
  induction done as [|ds done IH]; intros x Hall; simpl.
  - split; reflexivity.
  - simpl in Hall.
    assert (Hds : forall d, In d ds -> d = true)
      by (intros d Hd; apply Hall, in_or_app; now left).
    assert (Hrest : forall d, In d (concat done) -> d = true)
      by (intros d Hd; apply Hall, in_or_app; now right).
    assert (Hf : filter negb ds = []).
    { clear -Hds. induction ds as [|d ds IHd]; [reflexivity|]. simpl.
      rewrite (Hds d (or_introl eq_refl)). simpl.
      apply IHd. intros d' Hd'. apply Hds. now right. }
    split.
    + destruct x as [|xs x]; [reflexivity|]. simpl.
      rewrite (proj1 (IH x Hrest)), app_nil_r.
      clear -Hds. revert xs.
      induction ds as [|d ds IHd]; intros [|y ys]; try reflexivity. simpl.
      rewrite (Hds d (or_introl eq_refl)). simpl.
      apply IHd. intros d' Hd'. apply Hds. now right.
    + rewrite filter_app, Hf, (proj2 (IH [] Hrest)). reflexivity.
Qed.

End MaskMore.

(** X8: the masked mean is the sum of the cells that are not done divided
    by their number. Over the rationals, the numerator of
    [x.mean(where=(1 - done))] is the sum of the cells of [x] whose flag
    is false and the divisor is the number of flags that are false; when
    every flag is true both are zero, so the mean is the quotient 0/0. *)
Theorem masked_mean_over_kept_cells :
  forall (done : arr2 bool) (x : arr2 Q),
  exists N D : Q,
    PPO_RNN.amean_where x (PPO_RNN.amap PPO_RNN.one_minus done) = (N / D)%Q
    /\ (N == fold_left Qplus (PPO_RNN.kept done x) 0)%Q
    /\ (D == inject_Z (Z.of_nat (length (filter negb (concat done)))))%Q
    /\ ((forall d, In d (concat done) -> d = true) -> (N == 0 /\ D == 0)%Q).
Proof.
  intros done x. eexists _, _. split; [reflexivity|].
  assert (HN := MaskMore.masked_sum done x 0%Q).
  assert (HD := MaskMore.indicator_sum done 0%Q).
  split; [exact HN|]. split.
  - unfold PPO_RNN.asum. cbn [flit fadd Numeric_Q]. rewrite HD. ring.
  - intros Hall. destruct (@MaskMore.kept_all_done Q done x Hall) as [Hk Hf]. split.
    + unfold PPO_RNN.asum. cbn [flit fadd Numeric_Q]. rewrite HN, Hk.
      reflexivity.
    + unfold PPO_RNN.asum. cbn [flit fadd Numeric_Q]. rewrite HD, Hf.
      reflexivity.
Qed.

Lemma masked_mean_over_kept_cells_witness :
  exists N D : Q,
    PPO_RNN.amean_where [[1%Q; 2%Q]]
      (PPO_RNN.amap PPO_RNN.one_minus [[true; true]]) = (N / D)%Q
    /\ (N == 0 /\ D == 0)%Q.
Proof.
  destruct (masked_mean_over_kept_cells [[true; true]] [[1%Q; 2%Q]])
    as (N & D & Hm & _ & _ & Hall).
  exists N, D. split; [exact Hm|]. apply Hall.
  intros d [<- | [<- | []]]; reflexivity.
Defined.

(** ** More on the epochs of [update] *)

Module EpochFacts.
Import PPO_RNN ArrFacts AxisFacts.

Lemma scan_n_succ {C Y : Type} (f : C -> unit -> C * Y) (init : C) (n : nat) :
  fst (Arr.scan_n f init (S n)) = fst (Arr.scan_n f (fst (f init tt)) n).
Proof.
  simpl. destruct (f init tt) as [c y]. simpl.
  now destruct (Arr.scan_n f c n).
Qed.

Section Epochs.
Context {F I Params TrainState Key Distr : Type}.
Context `{Numeric F} `{Floating F} `{Jax F I Params TrainState Key Distr}.
Variable config : Config F.

(** What an epoch hands on, leaf by leaf. *)
Lemma _update_epoch_result (train_state : TrainState) (hstate : Nd.ndarray F)
  (traj_batch : Transition F I arr2) (advantages targets : arr2 F) (key : Key) :
  exists train_state' loss,
    _update_epoch config
      (train_state, hstate, traj_batch, advantages, targets, key) tt
    = ((train_state',
        Nd.squeeze (Nd.reshape_1_n (NUM_ENVS config) hstate),
        tree_map (@Arr.swapaxes01) (tree_map (@Arr.swapaxes01) traj_batch),
        advantages, targets, fst (split key)),
       loss).
Proof.
  unfold _update_epoch. destruct (split key) as [key' _key]. simpl.
  destruct (Arr.scan _ _ _) as [train_state' total_loss].
  eexists _, _. reflexivity.
Qed.

Lemma swap_back (rows cols : nat) (traj_batch : Transition F I arr2) :
  rect_traj (S rows) (S cols) traj_batch ->
  tree_map (@Arr.swapaxes01) (tree_map (@Arr.swapaxes01) traj_batch)
  = traj_batch.
Proof.
  intros (R1 & R2 & R3 & R4 & R5 & R6 & R7 & R8).
  destruct traj_batch. unfold tree_map. simpl in *.
  now rewrite (swapaxes01_involutive R1), (swapaxes01_involutive R2),
    (swapaxes01_involutive R3), (swapaxes01_involutive R4),
    (swapaxes01_involutive R5), (swapaxes01_involutive R6),
    (swapaxes01_involutive R7), (swapaxes01_involutive R8).
Qed.

Lemma epochs_carry (n : nat) (rows cols : nat) (train_state : TrainState)
  (hstate : Nd.ndarray F) (traj_batch : Transition F I arr2)
  (advantages targets : arr2 F) (key : Key) :
  rect_traj (S rows) (S cols) traj_batch ->
  exists train_state' hstate',
    fst (Arr.scan_n (_update_epoch config)
           (train_state, hstate, traj_batch, advantages, targets, key) n)
    = (train_state', hstate', traj_batch, advantages, targets,
       Nat.iter n (fun k => fst (split k)) key).
Proof.
  intros Hrect. revert train_state hstate key.
  induction n as [|n IH]; intros train_state hstate key.
  - simpl. eexists _, _. reflexivity.
  - rewrite scan_n_succ.
    destruct (_update_epoch_result train_state hstate traj_batch advantages
                targets key) as (ts1 & loss & ->).
    cbn [fst]. rewrite (swap_back Hrect).
    destruct (IH ts1 (Nd.squeeze (Nd.reshape_1_n (NUM_ENVS config) hstate))
                 (fst (split key))) as (ts' & h' & E).
    exists ts', h'. rewrite Nat.iter_succ_r. exact E.
Qed.

Lemma epochs_key (n : nat) (train_state : TrainState)
  (hstate : Nd.ndarray F) (traj_batch : Transition F I arr2)
  (advantages targets : arr2 F) (key : Key) :
  exists train_state' hstate' traj_batch',
    fst (Arr.scan_n (_update_epoch config)
           (train_state, hstate, traj_batch, advantages, targets, key) n)
    = (train_state', hstate', traj_batch', advantages, targets,
       Nat.iter n (fun k => fst (split k)) key).
Proof.
  revert train_state hstate traj_batch key.
  induction n as [|n IH]; intros train_state hstate traj_batch key.
  - simpl. eexists _, _, _. reflexivity.
  - rewrite scan_n_succ.
    destruct (_update_epoch_result train_state hstate traj_batch advantages
                targets key) as (ts1 & loss & ->).
    cbn [fst].
    destruct (IH ts1 (Nd.squeeze (Nd.reshape_1_n (NUM_ENVS config) hstate))
                 (tree_map (@Arr.swapaxes01)
                           (tree_map (@Arr.swapaxes01) traj_batch))
                 (fst (split key))) as (ts' & h' & tb' & E).
    exists ts', h', tb'. rewrite Nat.iter_succ_r. exact E.
Qed.

End Epochs.
End EpochFacts.

(** X9: [update] advances the PRNG key once per epoch. The key of the
    returned runner state is the input key put [UPDATE_EPOCHS] times
    through [split], keeping the first half each time; the second halves
    are the keys of the permutations. *)
Theorem update_splits_key_once_per_epoch :
  forall (F I Params TrainState Key Distr EnvState : Type) (N : Numeric F)
         (Fl : Floating F) (J : PPO_RNN.Jax F I Params TrainState Key Distr)
         (config : PPO_RNN.Config F)
         (runner_state : PPO_RNN.RunnerState EnvState)
         (traj_batch : Transition F I arr2),
    PPO_RNN.key_of (PPO_RNN.update config runner_state traj_batch)
    = Nat.iter (PPO_RNN.UPDATE_EPOCHS config)
               (fun k => fst (PPO_RNN.split k))
               (PPO_RNN.key_of runner_state).
Proof.
  intros F I Params TrainState Key Distr EnvState N Fl J config
         [[[[[ts env] lobs] ldone] h] key] traj_batch.
  destruct (UpdateFacts.update_unfold config ts env lobs ldone h key traj_batch)
    as (adv & targ & ->).
  destruct (EpochFacts.epochs_key config (PPO_RNN.UPDATE_EPOCHS config)
              ts h traj_batch adv targ key) as (ts' & h' & tb' & ->).
  reflexivity.
Qed.

(** X10: every epoch works on the same batch. For a trajectory batch
    whose leaves are arrays of at least one step and one environment, the
    two axis swaps of an epoch cancel: after any number of epochs the
    carry holds the trajectory batch, the advantages and the targets it
    started with. *)
Theorem epochs_see_the_same_batch :
  forall (F I Params TrainState Key Distr : Type) (N : Numeric F)
         (Fl : Floating F) (J : PPO_RNN.Jax F I Params TrainState Key Distr)
         (config : PPO_RNN.Config F) (epochs steps envs : nat)
         (train_state : TrainState) (hstate : Nd.ndarray F)
         (traj_batch : Transition F I arr2) (advantages targets : arr2 F)
         (key : Key),
    PPO_RNN.rect_traj (S steps) (S envs) traj_batch ->
    exists train_state' hstate' key',
      fst (Arr.scan_n (PPO_RNN._update_epoch config)
             (train_state, hstate, traj_batch, advantages, targets, key) epochs)
      = (train_state', hstate', traj_batch, advantages, targets, key').
Proof.
  intros F I Params TrainState Key Distr N Fl J config epochs steps envs
         train_state hstate traj_batch advantages targets key Hrect.
  destruct (EpochFacts.epochs_carry config epochs train_state hstate advantages
              targets key Hrect) as (ts' & h' & E).
  eexists _, _, _. exact E.
Qed.

Lemma epochs_see_the_same_batch_witness :
  exists train_state' hstate' key',
    fst (Arr.scan_n (PPO_RNN._update_epoch small_config)
           (Lit 1, small_hstate, small_traj, numbered, numbered, 7) 2)
    = (train_state', hstate', small_traj, numbered, numbered, key').
Proof.
  assert (Hrect : PPO_RNN.rect_traj 3 2 small_traj).
  { repeat split; repeat constructor. }
  exact (@epochs_see_the_same_batch _ _ _ _ _ _ _ _ Jax_small small_config 2
           2 1 (Lit 1) small_hstate small_traj numbered numbered 7 Hrect).
Defined.

Module ShuffleFacts.
Import PPO_RNN ArrFacts AxisFacts.

Lemma take_identity {A : Type} (fill : A) (row : list A) :
  Arr.take fill (seq 0 (length row)) row = row.
Proof.
  unfold Arr.take.
  apply (nth_ext _ _ fill fill); [now rewrite length_map, length_seq|].
  intros n Hn. rewrite length_map, length_seq in Hn.
  rewrite (nth_indep _ fill (nth 0 row fill)) by
      (now rewrite length_map, length_seq).
  rewrite (map_nth (fun i => nth i row fill)), seq_nth by exact Hn.
  reflexivity.
Qed.

(** Taking the cells of a row at the indices of a permutation reorders
    the row. *)
Lemma take_permutation {A : Type} (fill : A) (perm : list nat) (row : list A) :
  Permutation perm (seq 0 (length row)) ->
  Permutation (Arr.take fill perm row) row.
Proof.
  intros Hp. rewrite <- (take_identity fill row) at 2.
  unfold Arr.take. now apply Permutation_map.
Qed.

Lemma take_axis1_permutation {A : Type} (fill : A) (perm : list nat)
  (n : nat) (x : list (list A)) :
  Permutation perm (seq 0 n) ->
  Forall (fun r => length r = n) x ->
  Forall2 (@Permutation A) (Arr.take_axis1 fill perm x) x.
Proof.
  intros Hp Hx. unfold Arr.take_axis1.
  induction Hx as [|r x Hr _ IH]; simpl; constructor; [|exact IH].
  apply take_permutation. now rewrite Hr.
Qed.

(** Cutting a row whose length is [n * k] in [n] chunks of [k] cells and
    joining the chunks gives the row back. *)
Lemma chunks_concat {A : Type} (n k : nat) (l : list A) :
  length l = n * k -> concat (Arr.chunks n k l) = l.
Proof.
  revert l. induction n as [|n IH]; intros l Hl; simpl.
  - destruct l; [reflexivity|discriminate].
  - rewrite IH; [apply firstn_skipn|].
    rewrite length_skipn. simpl in Hl. lia.
Qed.

Lemma chunks_length {A : Type} (n k : nat) (l : list A) :
  length (Arr.chunks n k l) = n.
Proof.
  revert l. induction n as [|n IH]; intros l; simpl; [reflexivity|].
  now rewrite IH.
Qed.

End ShuffleFacts.

(** X11: a shuffle by a permutation of the indices of axis 1 only
    reorders cells. When [permutation] is a permutation of the indices
    [0 .. n-1] and the rows of the advantages and targets have [n] cells,
    every row of the shuffled advantages and targets is a permutation of
    the row it was taken from: no cell is lost, doubled or filled in. *)
Theorem shuffle_reorders_cells :
  forall (F I Params TrainState Key Distr : Type) (N : Numeric F)
         (Fl : Floating F) (J : PPO_RNN.Jax F I Params TrainState Key Distr)
         (permutation : list nat) (n : nat) (init_hstate : Nd.ndarray F)
         (traj_batch : Transition F I arr2) (advantages targets : arr2 F),
    Permutation permutation (seq 0 n) ->
    Forall (fun r => length r = n) advantages ->
    Forall (fun r => length r = n) targets ->
    let '(_, _, advantages', targets') :=
      PPO_RNN.shuffle permutation (init_hstate, traj_batch, advantages, targets) in
    Forall2 (@Permutation F) advantages' advantages
    /\ Forall2 (@Permutation F) targets' targets.
Proof.
  intros F I Params TrainState Key Distr N Fl J permutation n init_hstate
         traj_batch advantages targets Hp Ha Ht.
  unfold PPO_RNN.shuffle. split.
  - exact (ShuffleFacts.take_axis1_permutation fnan Hp Ha).
  - exact (ShuffleFacts.take_axis1_permutation fnan Hp Ht).
Qed.

Lemma shuffle_reorders_cells_witness :
  let '(_, _, advantages', _) :=
    PPO_RNN.shuffle (I := unit) (Params := term) (TrainState := term)
      (Key := nat) (Distr := arr2 term) [1; 0]
      (small_hstate, small_traj, [[Lit 1; Lit 2]], [[Lit 3; Lit 4]]) in
  Forall2 (@Permutation term) advantages' [[Lit 1; Lit 2]].
Proof.
  assert (Hp : Permutation [1; 0] (seq 0 2)) by apply perm_swap.
  assert (Ha : Forall (fun r : list term => length r = 2) [[Lit 1; Lit 2]])
    by (repeat constructor).
  assert (Ht : Forall (fun r : list term => length r = 2) [[Lit 3; Lit 4]])
    by (repeat constructor).
  exact (proj1 (@shuffle_reorders_cells _ _ _ _ _ _ _ _ Jax_small [1; 0] 2
                  small_hstate small_traj _ _ Hp Ha Ht)).
Defined.

(** X12: the minibatches partition axis 1. An array with at least one row
    whose rows have [nm * k] cells is cut in exactly [nm] minibatches,
    and row [i] of the minibatches, joined in the order of the
    minibatches, is row [i] of the array. *)
Theorem minibatches_partition_axis_1 :
  forall (A : Type) (nm k rows i : nat) (x : list (list A)),
    Arr.rect (S rows) (S nm * k) x ->
    i <= rows ->
    length (Arr.split_minibatches (S nm) x) = S nm
    /\ concat (map (fun minibatch => nth i minibatch [])
                   (Arr.split_minibatches (S nm) x))
       = nth i x [].
Proof.
  intros A nm k rows i x [Hlen Hall] Hi.
  unfold Arr.split_minibatches.
  assert (Hr : Arr.rect (S rows) (S nm) (Arr.reshape_minibatches (S nm) x)).
  { unfold Arr.reshape_minibatches. split; [now rewrite length_map|].
    apply Forall_forall. intros c Hc. apply in_map_iff in Hc.
    destruct Hc as (r & <- & _). apply ShuffleFacts.chunks_length. }
  destruct (AxisFacts.swapaxes01_columns [] Hr) as [Hl Hc].
  split; [exact Hl|].
  assert (Hrow : map (fun minibatch => nth i minibatch [])
                     (Arr.swapaxes01 (Arr.reshape_minibatches (S nm) x))
                 = nth i (Arr.reshape_minibatches (S nm) x) []).
  { assert (Hr' : Arr.rect (S nm) (S rows)
                    (Arr.swapaxes01 (Arr.reshape_minibatches (S nm) x))).
    { split; [exact Hl|]. apply Forall_forall. intros c Hin.
      apply (In_nth _ _ []) in Hin. destruct Hin as (j & Hj & <-).
      rewrite Hc by lia. rewrite length_map. apply Hr. }
    destruct (AxisFacts.swapaxes01_columns [] Hr') as [_ Hc'].
    rewrite <- Hc' by lia.
    now rewrite (AxisFacts.swapaxes01_involutive Hr). }
  rewrite Hrow. unfold Arr.reshape_minibatches.
  rewrite (nth_indep _ [] (Arr.chunks (S nm) (length (@nil A) / S nm) []))
    by (rewrite length_map; lia).
  rewrite (map_nth (fun row => Arr.chunks (S nm) (length row / S nm) row)).
  rewrite Forall_forall in Hall.
  assert (Hri : length (nth i x []) = S nm * k) by (apply Hall, nth_In; lia).
  apply ShuffleFacts.chunks_concat.
  rewrite Hri, Nat.mul_comm, Nat.div_mul by lia. lia.
Qed.

Lemma minibatches_partition_axis_1_witness :
  length (Arr.split_minibatches 2 [[1; 2; 3; 4]; [5; 6; 7; 8]]) = 2
  /\ concat (map (fun minibatch => nth 1 minibatch [])
                 (Arr.split_minibatches 2 [[1; 2; 3; 4]; [5; 6; 7; 8]]))
     = [5; 6; 7; 8].
Proof.
  assert (Hr : Arr.rect 2 (2 * 2) [[1; 2; 3; 4]; [5; 6; 7; 8]]).
  { split; [reflexivity|]. repeat constructor. }
  exact (@minibatches_partition_axis_1 nat 1 2 1 1 _ Hr (le_n 1)).
Defined.

(** ** More on the training loop *)

Module RolloutFacts.
Import EnvLoop ArrFacts.

Lemma scan_n_length {C Y : Type} (f : C -> unit -> C * Y) (init : C) (n : nat) :
  length (snd (Arr.scan_n f init n)) = n.
Proof.
  revert init. induction n as [|n IH]; intros init; simpl; [reflexivity|].
  destruct (f init tt) as [c y]. specialize (IH c).
  destruct (Arr.scan_n f c n) as [c' ys]. simpl in *. now rewrite IH.
Qed.

Section Loop.
Context {F I TrainState EnvState GraphState HState Key Keys
           ObsDict ActDict RewDict DoneDict InfoDict Pi SpecKey Metric : Type}.
Context `{Collaborators F I TrainState EnvState GraphState HState Key Keys
            ObsDict ActDict RewDict DoneDict InfoDict Pi SpecKey Metric}.
Variable config : Config.

Lemma _run_episode_step_train_state (runner_state : RunnerState) :
  train_state_of (fst (_run_episode_step config runner_state tt))
  = train_state_of runner_state.
Proof.
  destruct runner_state as [[[[[[ts es] lobs] ldone] h] g] key].
  unfold _run_episode_step.
  destruct (actor_act _ _ _ _ _)
    as [[[[[[h' action_n] log_prob_n] value_n] key'] pi] sk].
  destruct (split key') as [key'' _key].
  destruct (vstep _ _ _ _) as [[[[[o es'] r] d] i] g'].
  reflexivity.
Qed.

Lemma _run_update_counter (graph_state : GraphState)
  (runner_state : RunnerState) (update_steps : nat) :
  snd (fst (_run_update config graph_state (runner_state, update_steps) tt))
  = update_steps + 1.
Proof.
  unfold _run_update.
  destruct (Arr.scan_n _ _ _) as [[[[[[[ts es] o] d] h] g] key] trajectory].
  destruct (actor_update _ _) as [[[[[ts' es'] o'] d'] h'] key'].
  reflexivity.
Qed.

Lemma cycles_counter (graph_state : GraphState) (n : nat)
  (c : RunnerState * nat) :
  snd (fst (Arr.scan_n (_run_update config graph_state) c n)) = snd c + n.
Proof.
  revert c. induction n as [|n IH]; intros c.
  - simpl. lia.
  - rewrite EpochFacts.scan_n_succ, IH. destruct c as [rs k].
    rewrite _run_update_counter. simpl. lia.
Qed.

End Loop.
End RolloutFacts.

(** X14: the parameters are frozen during a rollout. Whatever the agent
    and the environment do, the runner state at the end of the
    [NUM_STEPS] steps of a rollout holds the train state the rollout
    started with. *)
Theorem rollout_keeps_train_state :
  forall (F I TrainState EnvState GraphState HState Key Keys ObsDict
            ActDict RewDict DoneDict InfoDict Pi SpecKey Metric : Type)
         (C : EnvLoop.Collaborators F I TrainState EnvState GraphState
                HState Key Keys ObsDict ActDict RewDict DoneDict InfoDict
                Pi SpecKey Metric)
         (config : EnvLoop.Config) (runner_state : EnvLoop.RunnerState),
    EnvLoop.train_state_of (fst (EnvLoop.rollout config runner_state))
    = EnvLoop.train_state_of runner_state.
Proof.
  intros. unfold EnvLoop.rollout.
  apply (ArrFacts.scan_n_invariant
           (fun c => EnvLoop.train_state_of c
                     = EnvLoop.train_state_of runner_state)).
  - intros c Hc. now rewrite RolloutFacts._run_episode_step_train_state.
  - reflexivity.
Qed.

(** X15: the update counter counts the cycles. The counter carried into
    cycle number [cycles] is [cycles], and [train] returns one metric per
    cycle, [NUM_UPDATES] in all. *)
Theorem update_counter_counts_cycles :
  forall (F I TrainState EnvState GraphState HState Key Keys ObsDict
            ActDict RewDict DoneDict InfoDict Pi SpecKey Metric : Type)
         (C : EnvLoop.Collaborators F I TrainState EnvState GraphState
                HState Key Keys ObsDict ActDict RewDict DoneDict InfoDict
                Pi SpecKey Metric)
         (config : EnvLoop.Config) (cycles : nat),
    snd (EnvLoop.carried_into config cycles) = cycles
    /\ length (snd (EnvLoop.train config)) = EnvLoop.NUM_UPDATES config.
Proof.
  intros. split.
  - unfold EnvLoop.carried_into. now rewrite RolloutFacts.cycles_counter.
  - unfold EnvLoop.train. apply RolloutFacts.scan_n_length.
Qed.

(** X17: a cycle carries on the environment state and the hidden state
    of its rollout. Whatever [actor.update] returns in these two places,
    the runner state that [_run_update] returns holds the environment
    state and the hidden state the rollout ended with. *)
Theorem cycle_carries_rollout_state :
  forall (F I TrainState EnvState GraphState HState Key Keys ObsDict
            ActDict RewDict DoneDict InfoDict Pi SpecKey Metric : Type)
         (C : EnvLoop.Collaborators F I TrainState EnvState GraphState
                HState Key Keys ObsDict ActDict RewDict DoneDict InfoDict
                Pi SpecKey Metric)
         (config : EnvLoop.Config) (graph_state : GraphState)
         (runner_state : EnvLoop.RunnerState) (update_steps : nat),
    let next :=
      fst (fst (EnvLoop._run_update config graph_state
                  (runner_state, update_steps) tt)) in
    EnvLoop.env_state_of next
    = EnvLoop.env_state_of (fst (EnvLoop.rollout config runner_state))
    /\ EnvLoop.hstate_of next
       = EnvLoop.hstate_of (fst (EnvLoop.rollout config runner_state)).
Proof.
  intros. subst next. unfold EnvLoop._run_update, EnvLoop.rollout.
  destruct (Arr.scan_n _ _ _) as [[[[[[[ts es] o] d] h] g] key] trajectory].
  destruct (EnvLoop.actor_update _ _) as [[[[[ts' es'] o'] d'] h'] key'].
  split; reflexivity.
Qed.

(** ** More on the learning-rate schedule *)

Module ScheduleMore.
Import PPO_RNN.
Local Open Scope Q_scope.

Section Schedule.
Variable LR : Q.
Variables NM UE NU : Z.
Hypothesis steps_pos : (0 < NM * UE)%Z.
Hypothesis updates_pos : (0 < NU)%Z.

Lemma NU_pos : 0 < inject_Z NU.
Proof. unfold Qlt. simpl. lia. Qed.

(** The schedule in terms of the number of finished updates. *)
Lemma linear_schedule_of_quotient (count : Z) :
  linear_schedule LR NM UE NU count
  == LR * (inject_Z NU - inject_Z (count / (NM * UE))) / inject_Z NU.
Proof.
  unfold linear_schedule. cbv zeta. field.
  intros E. pose proof NU_pos as Hp. rewrite E in Hp. discriminate Hp.
Qed.

End Schedule.
End ScheduleMore.

(** X20: the rate changes once per update cycle. For positive numbers of
    minibatches, epochs and updates, every optimiser step of update number
    [update] runs at the rate [LR * (1 - update / NUM_UPDATES)], and the
    first step runs at [LR]. *)
Theorem schedule_is_constant_within_an_update :
  forall (LR : Q) (NUM_MINIBATCHES UPDATE_EPOCHS NUM_UPDATES update step : Z),
    (0 < NUM_MINIBATCHES * UPDATE_EPOCHS)%Z ->
    (0 < NUM_UPDATES)%Z ->
    (0 <= step < NUM_MINIBATCHES * UPDATE_EPOCHS)%Z ->
    (PPO_RNN.linear_schedule LR NUM_MINIBATCHES UPDATE_EPOCHS NUM_UPDATES
       (NUM_MINIBATCHES * UPDATE_EPOCHS * update + step)
     == LR * (1 - inject_Z update / inject_Z NUM_UPDATES))%Q
    /\ (PPO_RNN.linear_schedule LR NUM_MINIBATCHES UPDATE_EPOCHS NUM_UPDATES 0
        == LR)%Q.
Proof.
  intros LR NM UE NU update step Hk Hn Hstep.
  unfold PPO_RNN.linear_schedule. cbv zeta. split.
  - replace ((NM * UE * update + step) / (NM * UE))%Z with update.
    + reflexivity.
    + symmetry. rewrite Z.mul_comm, Z.div_add_l by lia.
      rewrite Z.div_small by lia. lia.
  - rewrite Z.div_0_l by lia. unfold Qdiv. ring.
Qed.

Lemma schedule_is_constant_within_an_update_witness :
  (PPO_RNN.linear_schedule (25 # 100000) 4 4 10 (4 * 4 * 5 + 7)
   == (25 # 100000) * (1 - inject_Z 5 / inject_Z 10))%Q.
Proof.
  apply (@schedule_is_constant_within_an_update (25 # 100000)%Q 4%Z 4%Z 10%Z
           5%Z 7%Z); [reflexivity | reflexivity | split; [discriminate|reflexivity]].
Defined.

(** X21: the schedule is not clamped at zero. For a positive [LR], once
    the count has passed the planned steps by one more update, the rate
    is negative. *)
Theorem schedule_is_negative_after_the_plan :
  forall (LR : Q) (NUM_MINIBATCHES UPDATE_EPOCHS NUM_UPDATES count : Z),
    (0 < LR)%Q ->
    (0 < NUM_MINIBATCHES * UPDATE_EPOCHS)%Z ->
    (0 < NUM_UPDATES)%Z ->
    (NUM_MINIBATCHES * UPDATE_EPOCHS * (NUM_UPDATES + 1) <= count)%Z ->
    (PPO_RNN.linear_schedule LR NUM_MINIBATCHES UPDATE_EPOCHS NUM_UPDATES count
     < 0)%Q.
Proof.
  intros LR NM UE NU count HLR Hk Hn Hc.
  rewrite (@ScheduleMore.linear_schedule_of_quotient LR NM UE NU Hn count).
  assert (Hq : (NU + 1 <= count / (NM * UE))%Z).
  { apply Z.div_le_lower_bound; lia. }
  assert (Hd : (inject_Z NU - inject_Z (count / (NM * UE)) < 0)%Q).
  { unfold Qminus. rewrite <- inject_Z_opp, <- inject_Z_plus.
    unfold Qlt. simpl. lia. }
  pose proof (@ScheduleMore.NU_pos NU Hn) as Hp.
  apply Qlt_shift_div_r; [exact Hp|].
  setoid_replace (0 * inject_Z NU)%Q with (LR * 0)%Q by ring.
  now apply Qmult_lt_l.
Qed.

Lemma schedule_is_negative_after_the_plan_witness :
  (PPO_RNN.linear_schedule (25 # 100000) 4 4 10 176 < 0)%Q.
Proof.
  apply (@schedule_is_negative_after_the_plan (25 # 100000)%Q 4%Z 4%Z 10%Z
           176%Z); reflexivity || discriminate.
Defined.

(** ** The reward dispatch of the environments *)

Module DispatchFacts.
Import AYS.

Section Loop.
Context {St : Type}.

Lemma for_agents_returns (body : nat -> world St -> outcome (world St))
  (agents : list nat) :
  (forall a, In a agents ->
     forall w, exists w', body a w = Returned w' /\ stdout w' = stdout w) ->
  forall w, exists w',
    for_agents body agents w = Returned w' /\ stdout w' = stdout w.
Proof.
  induction agents as [|a rest IH]; intros Hq w; simpl.
  - exists w. split; reflexivity.
  - destruct (Hq a (or_introl eq_refl) w) as [w1 [E1 S1]].
    rewrite E1.
    destruct (IH (fun b Hb => Hq b (or_intror Hb)) w1) as [w2 [E2 S2]].
    exists w2. split; [exact E2|congruence].
Qed.

End Loop.

Section Multi.
Context {St : Type} `{MultiAgent.Rewards St}.

Lemma multi_recognised_returns (reward_type : list (option string))
  (agent : nat) (s : string) (w : world St) :
  nth_error reward_type agent = Some (Some s) ->
  MultiAgent.recognised s = true ->
  exists w', MultiAgent.dispatch reward_type agent w = Returned w' /\
             stdout w' = stdout w.
Proof.
  intros E R. unfold MultiAgent.dispatch. rewrite E.
  unfold MultiAgent.recognised in R. simpl in R.
  repeat (apply orb_true_iff in R; destruct R as [R|R];
          [apply String.eqb_eq in R; subst s; simpl; eexists; split; reflexivity|]).
  discriminate.
Qed.
End Multi.

End DispatchFacts.

(** X22: a run where every agent has a recognised selector returns and
    prints nothing. In [AYS_Environment_MultiAgent], when every agent
    below [num_agents] has an entry that the environment recognises,
    [get_reward_function] returns normally and the standard output is as
    it was before the call. *)
Theorem recognised_selectors_return_quietly :
  forall (St : Type) (RM : AYS.MultiAgent.Rewards St)
         (num_agents : nat) (reward_type : list (option string))
         (w : AYS.world St),
    (forall agent, agent < num_agents ->
       exists s, nth_error reward_type agent = Some (Some s) /\
                 AYS.MultiAgent.recognised s = true) ->
    exists w', AYS.MultiAgent.get_reward_function num_agents reward_type w
               = AYS.Returned w' /\ AYS.stdout w' = AYS.stdout w.
Proof.
  intros St RM num_agents reward_type w HM.
  apply DispatchFacts.for_agents_returns. intros a Ha w0.
  apply in_seq in Ha. destruct (HM a) as [s [E R]]; [lia|].
  exact (@DispatchFacts.multi_recognised_returns St RM _ _ _ w0 E R).
Qed.

Lemma recognised_selectors_return_quietly_witness :
  exists w', AYS.MultiAgent.get_reward_function (H := Examples.Rewards_multi) 2
               [Some "survive"; Some "PB_ext"]%string (AYS.mkWorld 0 [])
             = AYS.Returned w' /\ AYS.stdout w' = [].
Proof.
  apply (@recognised_selectors_return_quietly nat Examples.Rewards_multi
           2 [Some "survive"; Some "PB_ext"]%string (AYS.mkWorld 0 [])).
  intros agent Ha.
  destruct agent as [|[|k]]; [eexists; split; reflexivity..|lia].
Defined.

(** ** The planetary boundaries *)

Module EnvFacts.
Import AYSEnv.
Local Open Scope Q_scope.

Lemma Qltb_true (x y : Q) : Qltb x y = true <-> x < y.
Proof.
  unfold Qltb. rewrite negb_true_iff. split.
  - intro E. apply Qnot_le_lt. intro L. apply Qle_bool_iff in L. congruence.
  - intro L. destruct (Qle_bool y x) eqn:E; [|reflexivity].
    apply Qle_bool_iff in E. lra.
Qed.

Lemma Qle_bool_false (x y : Q) : Qle_bool x y = false <-> y < x.
Proof.
  split.
  - intro E. apply Qnot_le_lt. intro L. apply Qle_bool_iff in L. congruence.
  - intro L. destruct (Qle_bool x y) eqn:E; [|reflexivity].
    apply Qle_bool_iff in E. lra.
Qed.

Lemma column_total (m : list (list Q)) (j : nat) :
  Forall (fun row => (j < length row)%nat) m ->
  exists col, column m j = Some col /\
              forall i, nth_error col i = at2 m i j.
Proof.
  induction 1 as [|row rest Hrow Hrest IH].
  - exists []. split; [reflexivity|]. intros [|i]; reflexivity.
  - destruct IH as [col [Ec Hc]].
    destruct (nth_error row j) as [x|] eqn:Ex.
    + exists (x :: col). split.
      * simpl. rewrite Ex, Ec. reflexivity.
      * intros [|i]; [unfold at2; simpl; symmetry; exact Ex|].
        simpl. rewrite Hc. reflexivity.
    + apply nth_error_None in Ex. lia.
Qed.

Lemma all_pairs_false (cmp : Q -> Q -> bool) (col bound : list Q)
  (i k : nat) (c b : Q) :
  nth_error col i = Some c -> nth_error bound k = Some b ->
  cmp c b = false ->
  all_pairs cmp col bound = false.
Proof.
  intros Ec Eb Hc. unfold all_pairs.
  destruct (forallb (fun b0 => forallb (fun c0 => cmp c0 b0) col) bound) eqn:E;
    [|reflexivity].
  rewrite forallb_forall in E.
  pose proof (E b (nth_error_In _ _ Eb)) as E1.
  rewrite forallb_forall in E1.
  pose proof (E1 c (nth_error_In _ _ Ec)) as E2. congruence.
Qed.

End EnvFacts.

(** X28: outside the boundaries, [_which_PB] names a boundary. With the
    sustainability limit [S_LIMIT = 0] that [__init__] sets, whenever
    [_inside_planetary_boundaries] answers [False] for an agent,
    [_which_PB] returns one of [A_PB], [Y_SF], [S_PB] for that agent and
    never [OUT_OF_TIME]. *)
Theorem which_PB_names_a_boundary :
  forall (self : AYSEnv.Env) (agent : nat),
    AYSEnv._inside_planetary_boundaries self agent = Some false ->
    (forall s_limit : Q,
       nth_error (AYSEnv.S_LIMIT self) agent = Some s_limit ->
       (s_limit == 0)%Q) ->
    exists b : AYSEnv.Basins,
      AYSEnv._which_PB self agent = Some b /\
      b <> AYSEnv.OUT_OF_TIME.
Proof.
  intros self agent Hout Hlim.
  unfold AYSEnv._inside_planetary_boundaries in Hout.
  unfold AYSEnv._which_PB.
  destruct (AYSEnv.at2 (AYSEnv.state self) agent 0) as [a|]; [|discriminate].
  destruct (AYSEnv.at2 (AYSEnv.state self) agent 1) as [y|]; [|discriminate].
  destruct (AYSEnv.at2 (AYSEnv.state self) agent 2) as [s|]; [|discriminate].
  destruct (nth_error (AYSEnv.A_PB self) agent) as [a_pb|]; [|discriminate].
  destruct (Qle_bool a_pb a) eqn:Ea.
  { exists AYSEnv.A_PB_. split; [reflexivity|discriminate]. }
  apply EnvFacts.Qle_bool_false in Ea.
  destruct (AYSEnv.Qltb a_pb a) eqn:Ea'.
  { apply EnvFacts.Qltb_true in Ea'. lra. }
  destruct (nth_error (AYSEnv.Y_SF self) agent) as [y_sf|]; [|discriminate].
  destruct (Qle_bool y y_sf) eqn:Ey.
  { exists AYSEnv.Y_SF_. split; [reflexivity|discriminate]. }
  apply EnvFacts.Qle_bool_false in Ey.
  destruct (AYSEnv.Qltb y y_sf) eqn:Ey'.
  { apply EnvFacts.Qltb_true in Ey'. lra. }
  destruct (nth_error (AYSEnv.S_LIMIT self) agent) as [s_limit|] eqn:El;
    [|discriminate].
  injection Hout as Hs. apply negb_false_iff in Hs.
  apply EnvFacts.Qltb_true in Hs.
  pose proof (Hlim s_limit eq_refl) as H0.
  assert (Es : Qle_bool s 0 = true) by (apply Qle_bool_iff; lra).
  rewrite Es. exists AYSEnv.S_PB. split; [reflexivity|discriminate].
Qed.

Lemma which_PB_names_a_boundary_witness :
  exists b : AYSEnv.Basins,
    AYSEnv._which_PB
      (AYSEnv.mkEnv [[(1 # 2)%Q; (1 # 2)%Q; (1 # 2)%Q];
                     [(1 # 2)%Q; (1 # 4)%Q; (1 # 2)%Q]]
                    [0%Q; 0%Q] [(3 # 5)%Q; (3 # 5)%Q] [(1 # 3)%Q; (1 # 3)%Q]
                    [0%Q; 0%Q] (99 # 100)%Q 600 0) 1 = Some b /\
    b <> AYSEnv.OUT_OF_TIME.
Proof.
  apply (@which_PB_names_a_boundary
           (AYSEnv.mkEnv [[(1 # 2)%Q; (1 # 2)%Q; (1 # 2)%Q];
                          [(1 # 2)%Q; (1 # 4)%Q; (1 # 2)%Q]]
                         [0%Q; 0%Q] [(3 # 5)%Q; (3 # 5)%Q]
                         [(1 # 3)%Q; (1 # 3)%Q]
                         [0%Q; 0%Q] (99 # 100)%Q 600 0) 1).
  - reflexivity.
  - intros s_limit E. injection E as <-. reflexivity.
Defined.

(** X29: the check of all the agents passes as soon as one agent is
    inside. For a state with three entries per agent, when
    [_inside_planetary_boundaries] answers [True] for some agent,
    [_inside_planetary_boundaries_all] answers [True], wherever the other
    agents are. *)
Theorem one_agent_inside_passes_the_check_of_all :
  forall (self : AYSEnv.Env) (agent : nat),
    Forall (fun row => length row = 3) (AYSEnv.state self) ->
    AYSEnv._inside_planetary_boundaries self agent = Some true ->
    AYSEnv._inside_planetary_boundaries_all self = Some true.
Proof.
  intros self agent Hrows Hin.
  unfold AYSEnv._inside_planetary_boundaries in Hin.
  unfold AYSEnv._inside_planetary_boundaries_all.
  assert (Hcol : forall j, j < 3 ->
            exists col, AYSEnv.column (AYSEnv.state self) j = Some col /\
                        forall i, nth_error col i
                                  = AYSEnv.at2 (AYSEnv.state self) i j).
  { intros j Hj. apply EnvFacts.column_total.
    eapply Forall_impl; [|exact Hrows]. simpl. intros row Hr. lia. }
  destruct (Hcol 0 ltac:(lia)) as [ca [Ea Ha]].
  destruct (Hcol 1 ltac:(lia)) as [cy [Ey Hy]].
  destruct (Hcol 2 ltac:(lia)) as [cs [Es Hs]].
  rewrite Ea, Ey, Es.
  destruct (AYSEnv.at2 (AYSEnv.state self) agent 0) as [a|] eqn:Xa;
    [|discriminate].
  destruct (AYSEnv.at2 (AYSEnv.state self) agent 1) as [y|] eqn:Xy;
    [|discriminate].
  destruct (AYSEnv.at2 (AYSEnv.state self) agent 2) as [s|] eqn:Xs;
    [|discriminate].
  destruct (nth_error (AYSEnv.A_PB self) agent) as [a_pb|] eqn:Ba;
    [|discriminate].
  destruct (AYSEnv.Qltb a_pb a) eqn:Ca; [discriminate|].
  destruct (nth_error (AYSEnv.Y_SF self) agent) as [y_sf|] eqn:By;
    [|discriminate].
  destruct (AYSEnv.Qltb y y_sf) eqn:Cy; [discriminate|].
  destruct (nth_error (AYSEnv.S_LIMIT self) agent) as [s_limit|] eqn:Bs;
    [|discriminate].
  injection Hin as Cs. apply negb_true_iff in Cs.
  rewrite (@EnvFacts.all_pairs_false (fun c b => AYSEnv.Qltb b c) ca
             (AYSEnv.A_PB self) agent agent a a_pb
             (eq_trans (Ha agent) Xa) Ba Ca).
  rewrite (@EnvFacts.all_pairs_false (fun c b => AYSEnv.Qltb c b) cy
             (AYSEnv.Y_SF self) agent agent y y_sf
             (eq_trans (Hy agent) Xy) By Cy).
  rewrite (@EnvFacts.all_pairs_false (fun c b => AYSEnv.Qltb c b) cs
             (AYSEnv.S_LIMIT self) agent agent s s_limit
             (eq_trans (Hs agent) Xs) Bs Cs).
  reflexivity.
Qed.

Lemma one_agent_inside_passes_the_check_of_all_witness :
  AYSEnv._inside_planetary_boundaries_all
    (AYSEnv.mkEnv [[(1 # 2)%Q; (1 # 2)%Q; (1 # 2)%Q];
                   [(9 # 10)%Q; (1 # 10)%Q; (1 # 2)%Q]]
                  [0%Q; 0%Q] [(3 # 5)%Q; (3 # 5)%Q] [(1 # 3)%Q; (1 # 3)%Q]
                  [0%Q; 0%Q] (99 # 100)%Q 600 0) = Some true.
Proof.
  apply (@one_agent_inside_passes_the_check_of_all
           (AYSEnv.mkEnv [[(1 # 2)%Q; (1 # 2)%Q; (1 # 2)%Q];
                          [(9 # 10)%Q; (1 # 10)%Q; (1 # 2)%Q]]
                         [0%Q; 0%Q] [(3 # 5)%Q; (3 # 5)%Q]
                         [(1 # 3)%Q; (1 # 3)%Q]
                         [0%Q; 0%Q] (99 # 100)%Q 600 0) 0).
  - repeat constructor.
  - reflexivity.
Defined.
